(** * lxml maintenance branch: Schematron validation and the Python class lookup

    A shallow embedding of
      - [src/lxml/schematron.pxi]        (class [Schematron]), and
      - [src/lxml/lxml.pyclasslookup.pyx] (class [_ElementProxy],
        [_newProxy], [_freeProxies], [_lookup_class]),
    together with the properties their specification states about them.

    Python code that raises is modelled in a state-and-exception monad: a
    computation takes the state it runs in and gives the state it leaves
    behind with either a value or the exception that ended it.  Functions
    of libxml2 and of [lxml.etree]'s C-API that the two files only call
    are fields of an interface record, so that every theorem holds for
    whatever those functions return. *)

From Stdlib Require Import ZArith Lia Ascii.
From stdpp Require Import base option list strings relations.

Set Warnings "-register-all".

Open Scope Z_scope.

(** ** Exceptions and the monad *)

Module Py.

(** The exception classes the two files raise, and one constructor for
    everything raised by code they call. *)
Inductive exn_class :=
| LxmlError
| SchematronError
| SchematronParseError
| SchematronValidateError
| MemoryError
| AssertionError
| IndexError
| SystemError
| ValueError
| OtherError (tag : nat).

Inductive exn := Exn (cls : exn_class) (msg : string).

Definition exn_class_of (e : exn) : exn_class :=
  match e with Exn c _ => c end.

(** [class SchematronError(LxmlError)], [class
    SchematronParseError(SchematronError)], [class
    SchematronValidateError(SchematronError)]: the direct base class. *)
Definition base_class (c : exn_class) : option exn_class :=
  match c with
  | SchematronError => Some LxmlError
  | SchematronParseError => Some SchematronError
  | SchematronValidateError => Some SchematronError
  | _ => None
  end.

Definition exn_class_eqb (a b : exn_class) : bool :=
  match a, b with
  | LxmlError, LxmlError => true
  | SchematronError, SchematronError => true
  | SchematronParseError, SchematronParseError => true
  | SchematronValidateError, SchematronValidateError => true
  | MemoryError, MemoryError => true
  | AssertionError, AssertionError => true
  | IndexError, IndexError => true
  | SystemError, SystemError => true
  | ValueError, ValueError => true
  | OtherError n, OtherError m => Nat.eqb n m
  | _, _ => false
  end.

(** [issubclass c d]; the hierarchy above is two levels deep. *)
Definition issubclass (c d : exn_class) : bool :=
  exn_class_eqb c d
  || match base_class c with
     | Some b =>
         exn_class_eqb b d
         || match base_class b with
            | Some b' => exn_class_eqb b' d
            | None => false
            end
     | None => false
     end.

(** What an [except d] clause catches. *)
Definition isinstance (e : exn) (d : exn_class) : bool :=
  issubclass (exn_class_of e) d.

Inductive result (A : Type) :=
| Ok (a : A)
| Raise (e : exn).
Arguments Ok {A} a.
Arguments Raise {A} e.

(** A computation over a state [S]. *)
Definition M (S A : Type) : Type := S -> S * result A.

Definition ret {S A} (a : A) : M S A := fun s => (s, Ok a).

Definition raise {S A} (e : exn) : M S A := fun s => (s, Raise e).

(** Sequencing: an exception ends the computation, the state reached so
    far stays. *)
Definition bind {S A B} (c : M S A) (k : A -> M S B) : M S B :=
  fun s =>
    match c s with
    | (s', Ok a) => k a s'
    | (s', Raise e) => (s', Raise e)
    end.

Definition lift {S A} (r : result A) : M S A := fun s => (s, r).

End Py.

Import Py.

Declare Scope py_scope.
Delimit Scope py_scope with py.
Notation "x <- c ;; k" := (bind c (fun x => k))
  (at level 100, c at next level, right associativity) : py_scope.
Notation "c ;;; k" := (bind c (fun _ => k))
  (at level 100, right associativity) : py_scope.
Open Scope py_scope.

(** ** [schematron.pxi] *)

Module Schematron.

(** A C pointer: [None] is [NULL]. *)
Definition ptr := option nat.
Definition NULL : ptr := None.

(** A Python object reference, as far as this file looks at one. *)
Definition PyObject := nat.

Record _Document := { _c_doc : nat }.
Record _Element := { _c_node : nat }.

(** What [Schematron] calls and does not define: the build configuration,
    libxml2's constants and Schematron functions, and the helpers of
    [lxml.etree].  A function that allocates returns [NULL] when it
    fails. *)
Record natives := {
  ENABLE_SCHEMATRON : bool;
  LIBXML_VERSION : Z;
  XML_SCHEMATRON_OUT_QUIET : Z;
  XML_SCHEMATRON_OUT_XML : Z;
  _documentOrRaise : PyObject -> result _Document;
  _rootNodeOrRaise : PyObject -> result _Element;
  _copyDocRoot : nat -> nat -> nat;
  _getFilenameForFile : PyObject -> option PyObject;
  _encodeFilename : PyObject -> result string;
  xmlSchematronNewDocParserCtxt : nat -> ptr;
  xmlSchematronNewParserCtxt : string -> ptr;
  xmlSchematronParse : nat -> ptr;
  xmlSchematronNewValidCtxt : nat -> Z -> ptr;
  _fakeRootDoc : nat -> nat -> nat;
  xmlSchematronValidateDoc : nat -> nat -> Z
}.

(** The calls that reach outside the function, in the order they are
    made.  An allocation carries the pointer it returned. *)
Inductive event :=
| EvCopyDocRoot (c_doc : nat)
| EvNewDocParserCtxt (c_doc : nat) (r : ptr)
| EvNewParserCtxt (filename : string) (r : ptr)
| EvParse (parser_ctxt : nat) (r : ptr)
| EvFreeParserCtxt (parser_ctxt : nat)
| EvValidatorInit
| EvConnect
| EvDisconnect
| EvNewValidCtxt (options : Z) (r : ptr)
| EvFreeValidCtxt (valid_ctxt : nat)
| EvFakeRootDoc (c_doc : nat)
| EvDestroyFakeDoc (c_doc : nat)
| EvSaveThread
| EvRestoreThread
| EvValidateDoc (valid_ctxt c_doc : nat) (ret : Z).

Definition trace := list event.

Definition emit (e : event) : M trace unit := fun t => (t ++ [e], Ok tt).

Section Code.
Variable N : natives.

(** The two ways [__init__] obtains a parser context. *)
Definition parser_ctxt_from_tree (etree : PyObject) : M trace ptr :=
  doc <- lift (_documentOrRaise N etree) ;;
  root_node <- lift (_rootNodeOrRaise N etree) ;;
  let c_doc := _copyDocRoot N (_c_doc doc) (_c_node root_node) in
  emit (EvCopyDocRoot c_doc) ;;;
  let parser_ctxt := xmlSchematronNewDocParserCtxt N c_doc in
  emit (EvNewDocParserCtxt c_doc parser_ctxt) ;;;
  ret parser_ctxt.

Definition parser_ctxt_from_file (file : PyObject) : M trace ptr :=
  let filename :=
    match _getFilenameForFile N file with
    | None => file
    | Some f => f
    end in
  filename <- lift (_encodeFilename N filename) ;;
  let parser_ctxt := xmlSchematronNewParserCtxt N filename in
  emit (EvNewParserCtxt filename parser_ctxt) ;;;
  ret parser_ctxt.

(** [Schematron.__init__(self, etree=None, file=None)]; the value is
    [self._c_schema].  [python.PyErr_NoMemory()] raises [MemoryError]. *)
Definition __init__ (etree file : option PyObject) : M trace nat :=
  if negb (ENABLE_SCHEMATRON N) then
    raise (Exn SchematronError
             "lxml.etree was compiled without Schematron support.")
  else
    parser_ctxt <-
      match etree, file with
      | Some e, _ => parser_ctxt_from_tree e
      | None, Some f => parser_ctxt_from_file f
      | None, None => raise (Exn SchematronParseError "No tree or file given")
      end ;;
    match parser_ctxt with
    | None => raise (Exn MemoryError "")
    | Some parser_ctxt =>
        let c_schema := xmlSchematronParse N parser_ctxt in
        emit (EvParse parser_ctxt c_schema) ;;;
        emit (EvFreeParserCtxt parser_ctxt) ;;;
        match c_schema with
        | None =>
            raise (Exn SchematronParseError
                     "Document is not a valid Schematron schema")
        | Some c_schema =>
            emit EvValidatorInit ;;;
            ret c_schema
        end
    end.

(** [Schematron.__call__(self, etree)], for [self._c_schema = c_schema]. *)
Definition __call__ (c_schema : nat) (etree : PyObject) : M trace bool :=
  doc <- lift (_documentOrRaise N etree) ;;
  root_node <- lift (_rootNodeOrRaise N etree) ;;
  emit EvConnect ;;;
  let options := XML_SCHEMATRON_OUT_QUIET N in
  let options :=
    if LIBXML_VERSION N <=? 20629
    then Z.lor options (XML_SCHEMATRON_OUT_XML N)
    else options in
  let valid_ctxt := xmlSchematronNewValidCtxt N c_schema options in
  emit (EvNewValidCtxt options valid_ctxt) ;;;
  match valid_ctxt with
  | None =>
      emit EvDisconnect ;;;
      raise (Exn SchematronError "Failed to create validation context")
  | Some valid_ctxt =>
      let c_doc := _fakeRootDoc N (_c_doc doc) (_c_node root_node) in
      emit (EvFakeRootDoc c_doc) ;;;
      emit EvSaveThread ;;;
      let ret_code := xmlSchematronValidateDoc N valid_ctxt c_doc in
      emit (EvValidateDoc valid_ctxt c_doc ret_code) ;;;
      emit EvRestoreThread ;;;
      emit (EvDestroyFakeDoc c_doc) ;;;
      emit (EvFreeValidCtxt valid_ctxt) ;;;
      emit EvDisconnect ;;;
      if ret_code =? -1 then
        raise (Exn SchematronValidateError
                 "Internal error in Schematron validation")
      else if ret_code =? 0 then ret true
      else ret false
  end.

End Code.

(** *** The shape of a call *)

(** The options [__call__] passes to [xmlSchematronNewValidCtxt]. *)
Definition call_options (N : natives) : Z :=
  if LIBXML_VERSION N <=? 20629
  then Z.lor (XML_SCHEMATRON_OUT_QUIET N) (XML_SCHEMATRON_OUT_XML N)
  else XML_SCHEMATRON_OUT_QUIET N.

(** The verdict for a return code of the evaluation step. *)
Definition verdict (ret_code : Z) : result bool :=
  if ret_code =? -1 then
    Raise (Exn SchematronValidateError
             "Internal error in Schematron validation")
  else if ret_code =? 0 then Ok true
  else Ok false.

(** The three ways through [__call__]: a helper refuses the argument
    before anything is set up; no validation context can be created; the
    evaluation step runs. *)
Inductive call_path (N : natives) (c_schema : nat) (etree : PyObject)
  : trace * result bool -> Prop :=
| path_bad_argument e :
    call_path N c_schema etree ([], Raise e)
| path_no_context :
    call_path N c_schema etree
      ([EvConnect; EvNewValidCtxt (call_options N) None; EvDisconnect],
       Raise (Exn SchematronError "Failed to create validation context"))
| path_evaluated v d r :
    call_path N c_schema etree
      ([EvConnect; EvNewValidCtxt (call_options N) (Some v);
        EvFakeRootDoc d; EvSaveThread; EvValidateDoc v d r;
        EvRestoreThread; EvDestroyFakeDoc d; EvFreeValidCtxt v;
        EvDisconnect],
       verdict r).

(** *** Reading a trace *)

(** Whether the error log is connected after the calls of [t]. *)
Definition log_connected (t : trace) : bool :=
  foldl (fun b e =>
           match e with
           | EvConnect => true
           | EvDisconnect => false
           | _ => b
           end) false t.

(** The validation contexts created and not yet freed. *)
Definition live_valid_ctxts (t : trace) : list nat :=
  foldl (fun l e =>
           match e with
           | EvNewValidCtxt _ (Some c) => c :: l
           | EvFreeValidCtxt c => filter (fun x => x <> c) l
           | _ => l
           end) [] t.

(** The artificial root documents created and not yet destroyed. *)
Definition live_fake_docs (t : trace) : list nat :=
  foldl (fun l e =>
           match e with
           | EvFakeRootDoc d => d :: l
           | EvDestroyFakeDoc d => filter (fun x => x <> d) l
           | _ => l
           end) [] t.

(** Whether the interpreter lock is held after the calls of [t]. *)
Definition gil_held (t : trace) : bool :=
  foldl (fun b e =>
           match e with
           | EvSaveThread => false
           | EvRestoreThread => true
           | _ => b
           end) true t.

(** The parser contexts a trace allocated (a [NULL] result allocated
    nothing). *)
Definition parser_ctxts_allocated (t : trace) : list nat :=
  omap (fun e =>
          match e with
          | EvNewDocParserCtxt _ r => r
          | EvNewParserCtxt _ r => r
          | _ => None
          end) t.

(** The return code of the evaluation step, when the trace has one. *)
Definition evaluation_code (t : trace) : option Z :=
  last (omap (fun e =>
                match e with
                | EvValidateDoc _ _ r => Some r
                | _ => None
                end) t).

(** A build with everything in place: every helper succeeds, and the
    evaluation step returns [code]. *)
Definition sample_natives (enabled : bool) (code : Z) : natives := {|
  ENABLE_SCHEMATRON := enabled;
  LIBXML_VERSION := 20627;
  XML_SCHEMATRON_OUT_QUIET := 1;
  XML_SCHEMATRON_OUT_XML := 4;
  _documentOrRaise := fun o => Ok {| _c_doc := o |};
  _rootNodeOrRaise := fun o => Ok {| _c_node := o |};
  _copyDocRoot := fun d _ => S d;
  _getFilenameForFile := fun _ => None;
  _encodeFilename := fun _ => Ok "schema.sch";
  xmlSchematronNewDocParserCtxt := fun _ => Some 10%nat;
  xmlSchematronNewParserCtxt := fun _ => Some 11%nat;
  xmlSchematronParse := fun _ => Some 20%nat;
  xmlSchematronNewValidCtxt := fun _ _ => Some 30%nat;
  _fakeRootDoc := fun d _ => S (S d);
  xmlSchematronValidateDoc := fun _ _ => code
|}.

(** The same build when no validation context can be created. *)
Definition natives_without_valid_ctxt : natives := {|
  ENABLE_SCHEMATRON := true;
  LIBXML_VERSION := 20627;
  XML_SCHEMATRON_OUT_QUIET := 1;
  XML_SCHEMATRON_OUT_XML := 4;
  _documentOrRaise := fun o => Ok {| _c_doc := o |};
  _rootNodeOrRaise := fun o => Ok {| _c_node := o |};
  _copyDocRoot := fun d _ => S d;
  _getFilenameForFile := fun _ => None;
  _encodeFilename := fun _ => Ok "schema.sch";
  xmlSchematronNewDocParserCtxt := fun _ => Some 10%nat;
  xmlSchematronNewParserCtxt := fun _ => Some 11%nat;
  xmlSchematronParse := fun _ => Some 20%nat;
  xmlSchematronNewValidCtxt := fun _ _ => None;
  _fakeRootDoc := fun d _ => S (S d);
  xmlSchematronValidateDoc := fun _ _ => 0
|}.

Definition is_file_parser_ctxt (e : event) : bool :=
  match e with EvNewParserCtxt _ _ => true | _ => false end.

(** The parser contexts created and not yet freed. *)
Definition live_parser_ctxts (t : trace) : list nat :=
  foldl (fun l e =>
           match e with
           | EvNewDocParserCtxt _ (Some c) => c :: l
           | EvNewParserCtxt _ (Some c) => c :: l
           | EvFreeParserCtxt c => filter (fun x => x <> c) l
           | _ => l
           end) [] t.


(** The calls made while the interpreter lock is released, between
    [PyEval_SaveThread] and [PyEval_RestoreThread]. *)
Fixpoint while_released (released : bool) (t : trace) : list event :=
  match t with
  | [] => []
  | EvSaveThread :: rest => while_released true rest
  | EvRestoreThread :: rest => while_released false rest
  | e :: rest =>
      if released then e :: while_released released rest
      else while_released released rest
  end.

(** The option words handed to [xmlSchematronNewValidCtxt]. *)
Definition valid_ctxt_options (t : trace) : list Z :=
  omap (fun e =>
          match e with
          | EvNewValidCtxt options _ => Some options
          | _ => None
          end) t.

End Schematron.

(** ** [lxml.pyclasslookup.pyx] *)

Module PyClassLookup.

(** *** The libxml2 tree the proxies point into *)

Inductive xmlElementType :=
| XML_ELEMENT_NODE
| XML_ATTRIBUTE_NODE
| XML_TEXT_NODE
| XML_CDATA_SECTION_NODE
| XML_ENTITY_REF_NODE
| XML_PI_NODE
| XML_COMMENT_NODE
| XML_DOCUMENT_NODE.

Record xmlNs := { ns_href : string; ns_prefix : option string }.

Record xmlAttr := {
  attr_href : option string;
  attr_name : string;
  attr_value : string
}.

(** [struct _xmlNode], as far as [_ElementProxy] reads it.  The links
    [children], [next] and [parent] of libxml2 are the positions in this
    tree. *)
Inductive xmlNode := XmlNode {
  type : xmlElementType;
  name : string;
  ns : option xmlNs;
  properties : list xmlAttr;
  content : string;
  line : Z;
  children : list xmlNode
}.

(** The address of a node of the document: its index among its siblings,
    then the address of its parent; the document node has address [[]].
    An [xmlNode*] is an address or [NULL]. *)
Definition addr := list nat.
Definition ptr := option addr.
Definition NULL : ptr := None.

Fixpoint subtree (n : xmlNode) (down : list nat) : option xmlNode :=
  match down with
  | [] => Some n
  | i :: rest =>
      match children n !! i with
      | Some c => subtree c rest
      | None => None
      end
  end.

(** The node at an address of the document [D]. *)
Definition deref (D : xmlNode) (a : addr) : option xmlNode :=
  subtree D (rev a).

(** [c_node.children], [c_node.next], [c_node.parent] and [c_node.ns].  Python never reads them through [NULL]; the model gives
    [NULL] there. *)
Definition node_children (D : xmlNode) (c_node : ptr) : ptr :=
  match c_node with
  | Some a =>
      match deref D a with
      | Some n => match children n with [] => NULL | _ => Some (0%nat :: a) end
      | None => NULL
      end
  | None => NULL
  end.

Definition node_next (D : xmlNode) (c_node : ptr) : ptr :=
  match c_node with
  | Some (i :: up) =>
      match deref D (S i :: up) with
      | Some _ => Some (S i :: up)
      | None => NULL
      end
  | _ => NULL
  end.

Definition node_parent (c_node : ptr) : ptr :=
  match c_node with
  | Some (_ :: up) => Some up
  | _ => NULL
  end.

Definition node_ns (D : xmlNode) (c_node : ptr) : option xmlNs :=
  match c_node with
  | Some a => match deref D a with Some n => ns n | None => None end
  | None => None
  end.

Definition node_type (D : xmlNode) (c_node : ptr) : option xmlElementType :=
  match c_node with
  | Some a => type <$> deref D a
  | None => None
  end.

(** The nodes a loop [while c_node is not NULL: ...; c_node = c_node.next]
    visits, in order (see [sibling_chain_unfold]). *)
Definition sibling_chain (D : xmlNode) (c_node : ptr) : list addr :=
  match c_node with
  | None => []
  | Some [] => [[]]
  | Some (i :: up) =>
      (i :: up) ::
      match deref D up with
      | Some p =>
          (fun j => j :: up) <$> seq (S i) (length (children p) - S i)
      | None => []
      end
  end.

(** *** Python values *)

Inductive pyobj :=
| PyNone
| PyBool (b : bool)
| PyInt (z : Z)
| PyStr (s : string)
| PyProxy (id : nat)
| PyClass (c : nat)
| PyTuple (l : list pyobj)
| PyList (l : list pyobj)
| PyDict (items : pyobj)
| PyIter (seq : pyobj).

(** *** What the module calls and does not define

    The [_isElement] macro of [etree_defs.h], libxml2's [xmlGetLineNo],
    and the functions of [etreepublic.pxd] ([cetree]).  They take the
    pointer they are handed, [NULL] included.  [getNsTag] gives the two
    byte strings it splits a key into (the namespace may be [None]);
    [_cstr] of such a string is its characters, so the model hands the
    strings on as they are.  [callLookupFallback] sees the
    [FallbackElementClassLookup] part of the lookup object, the document
    and the node. *)
Record cetree := {
  _isElement : xmlElementType -> bool;
  xmlGetLineNo : ptr -> Z;
  namespacedName : ptr -> pyobj;
  textOf : ptr -> pyobj;
  tailOf : ptr -> pyobj;
  pyunicode : string -> pyobj;
  collectAttributes : ptr -> Z -> pyobj;
  findChild : ptr -> Z -> ptr;
  findChildBackwards : ptr -> Z -> ptr;
  nextElement : ptr -> ptr;
  previousElement : ptr -> ptr;
  getNsTag : pyobj -> result (option string * string);
  attributeValueFromNsName : ptr -> option string -> string -> pyobj;
  callLookupFallback : nat -> nat -> ptr -> result pyobj
}.

(** *** The proxy objects *)

(** [cdef class _ElementProxy]: an object reference is the index of the
    object in the heap; [None] in [_source_proxy] and
    [_dependent_proxies] is Python's [None].  The list in
    [_dependent_proxies] holds references. *)
Record _ElementProxy := {
  _c_node : ptr;
  _source_proxy : option nat;
  _dependent_proxies : option (list nat)
}.

Abbreviation heap := (list _ElementProxy).

Definition set_c_node (c : ptr) (p : _ElementProxy) : _ElementProxy :=
  {| _c_node := c;
     _source_proxy := _source_proxy p;
     _dependent_proxies := _dependent_proxies p |}.

Definition set_source_proxy (s : option nat) (p : _ElementProxy)
  : _ElementProxy :=
  {| _c_node := _c_node p;
     _source_proxy := s;
     _dependent_proxies := _dependent_proxies p |}.

Definition set_dependent_proxies (d : option (list nat)) (p : _ElementProxy)
  : _ElementProxy :=
  {| _c_node := _c_node p;
     _source_proxy := _source_proxy p;
     _dependent_proxies := d |}.

(** A reference always denotes a live object in Python.  The model's
    references are numbers, so reading through one that denotes nothing
    has to be given a meaning: it raises. *)
Definition dangling : exn := Exn SystemError "no such object".

Definition load (self : nat) : M heap _ElementProxy :=
  fun h =>
    match h !! self with
    | Some p => (h, Ok p)
    | None => (h, Raise dangling)
    end.

Definition store (self : nat) (f : _ElementProxy -> _ElementProxy)
  : M heap unit :=
  fun h =>
    match h !! self with
    | Some p => (<[self := f p]> h, Ok tt)
    | None => (h, Raise dangling)
    end.

(** [PY_NEW(_ElementProxy)]: a new object, its fields [NULL] and [None]. *)
Definition NEW_PROXY : M heap nat :=
  fun h =>
    (h ++ [{| _c_node := NULL;
              _source_proxy := None;
              _dependent_proxies := None |}],
     Ok (length h)).

(** [python.PyList_Append(sourceProxy._dependent_proxies, el)]; the C-API
    refuses an object that is not a list. *)
Definition PyList_Append_dependent (sourceProxy el : nat) : M heap unit :=
  p <- load sourceProxy ;;
  match _dependent_proxies p with
  | Some l => store sourceProxy (set_dependent_proxies (Some (l ++ [el])))
  | None => raise (Exn SystemError "bad internal call")
  end.

Definition _newProxy (sourceProxy : option nat) (c_node : ptr) : M heap nat :=
  el <- NEW_PROXY ;;
  store el (set_c_node c_node) ;;;
  match sourceProxy with
  | None =>
      store el (set_source_proxy (Some el)) ;;;
      store el (set_dependent_proxies (Some [el]))
  | Some sp =>
      store el (set_source_proxy (Some sp)) ;;;
      PyList_Append_dependent sp el
  end ;;;
  ret el.

Fixpoint for_each {A} (l : list A) (body : A -> M heap unit) : M heap unit :=
  match l with
  | [] => ret tt
  | x :: rest => body x ;;; for_each rest body
  end.

Definition _freeProxies (sourceProxy : option nat) : M heap unit :=
  match sourceProxy with
  | None => ret tt
  | Some sp =>
      p <- load sp ;;
      match _dependent_proxies p with
      | None => ret tt
      | Some l =>
          for_each l (fun el => store el (set_c_node NULL)) ;;;
          store sp (set_dependent_proxies (Some []))
      end
  end.

(** *** [_ElementProxy]'s properties and methods *)

Section Proxy.
Variable D : xmlNode.
Variable C : cetree.

Definition isElement_at (a : addr) : bool :=
  match node_type D (Some a) with
  | Some t => _isElement C t
  | None => false
  end.

Definition _assertNode (self : nat) : M heap Z :=
  p <- load self ;;
  match _c_node p with
  | None => raise (Exn AssertionError "Proxy invalidated!")
  | Some _ => ret 0
  end.

Definition tag (self : nat) : M heap pyobj :=
  _assertNode self ;;;
  p <- load self ;;
  ret (namespacedName C (_c_node p)).

Definition text (self : nat) : M heap pyobj :=
  _assertNode self ;;;
  p <- load self ;;
  ret (textOf C (_c_node p)).

Definition tail (self : nat) : M heap pyobj :=
  _assertNode self ;;;
  p <- load self ;;
  ret (tailOf C (_c_node p)).

Definition attrib (self : nat) : M heap pyobj :=
  _assertNode self ;;;
  p <- load self ;;
  ret (PyDict (collectAttributes C (_c_node p) 3)).

Definition prefix (self : nat) : M heap pyobj :=
  _assertNode self ;;;
  p <- load self ;;
  match node_ns D (_c_node p) with
  | Some n =>
      match ns_prefix n with
      | Some s => ret (pyunicode C s)
      | None => ret PyNone
      end
  | None => ret PyNone
  end.

Definition sourceline (self : nat) : M heap pyobj :=
  _assertNode self ;;;
  p <- load self ;;
  let line := xmlGetLineNo C (_c_node p) in
  if 0 <? line then ret (PyInt line) else ret PyNone.

Definition __getitem__ (self : nat) (index : Z) : M heap pyobj :=
  p <- load self ;;
  let c_node := findChild C (_c_node p) index in
  match c_node with
  | None => raise (Exn IndexError "list index out of range")
  | Some _ =>
      p <- load self ;;
      el <- _newProxy (_source_proxy p) c_node ;;
      ret (PyProxy el)
  end.

(** The loop of [__getslice__] over the nodes still to visit. *)
Fixpoint getslice_loop (self : nat) (stop : Z) (chain : list addr)
    (c : Z) (result : list pyobj) : M heap (list pyobj) :=
  match chain with
  | [] => ret result
  | c_node :: rest =>
      if c <? stop then
        if isElement_at c_node then
          p <- load self ;;
          el <- _newProxy (_source_proxy p) (Some c_node) ;;
          getslice_loop self stop rest (c + 1) (result ++ [PyProxy el])
        else getslice_loop self stop rest c result
      else ret result
  end.

Definition __getslice__ (self : nat) (start stop : Z) : M heap pyobj :=
  p <- load self ;;
  let c_node := findChild C (_c_node p) start in
  match c_node with
  | None => ret (PyList [])
  | Some _ =>
      result <- getslice_loop self stop (sibling_chain D c_node) start [] ;;
      ret (PyList result)
  end.

Fixpoint len_loop (chain : list addr) (c : Z) : Z :=
  match chain with
  | [] => c
  | c_node :: rest =>
      if isElement_at c_node then len_loop rest (c + 1) else len_loop rest c
  end.

Definition __len__ (self : nat) : M heap pyobj :=
  _assertNode self ;;;
  p <- load self ;;
  ret (PyInt (len_loop (sibling_chain D (node_children D (_c_node p))) 0)).

Definition __nonzero__ (self : nat) : M heap pyobj :=
  _assertNode self ;;;
  p <- load self ;;
  match findChildBackwards C (_c_node p) 0 with
  | None => ret (PyBool false)
  | Some _ => ret (PyBool true)
  end.

Fixpoint getchildren_loop (self : nat) (chain : list addr)
    (result : list nat) : M heap (list nat) :=
  match chain with
  | [] => ret result
  | c_node :: rest =>
      if isElement_at c_node then
        p <- load self ;;
        el <- _newProxy (_source_proxy p) (Some c_node) ;;
        getchildren_loop self rest (result ++ [el])
      else getchildren_loop self rest result
  end.

(** [getchildren], giving the references of the list it returns. *)
Definition getchildren_refs (self : nat) : M heap (list nat) :=
  _assertNode self ;;;
  p <- load self ;;
  getchildren_loop self (sibling_chain D (node_children D (_c_node p))) [].

Definition getchildren (self : nat) : M heap pyobj :=
  result <- getchildren_refs self ;;
  ret (PyList (PyProxy <$> result)).

Definition __iter__ (self : nat) : M heap pyobj :=
  children <- getchildren self ;;
  ret (PyIter children).

(** [[ el for el in children if el.tag == tag ]] *)
Fixpoint filter_by_tag (tag_wanted : pyobj) (children : list nat)
  : M heap (list nat) :=
  match children with
  | [] => ret []
  | el :: rest =>
      t <- tag el ;;
      kept <- filter_by_tag tag_wanted rest ;;
      match t, tag_wanted with
      | PyStr a, PyStr b => if String.eqb a b then ret (el :: kept) else ret kept
      | _, _ => ret kept
      end
  end.

Definition iterchildren (self : nat) (tag_wanted : pyobj) (reversed : bool)
  : M heap pyobj :=
  children <- getchildren_refs self ;;
  children <-
    match tag_wanted with
    | PyNone => ret children
    | _ => filter_by_tag tag_wanted children
    end ;;
  let children := if reversed then rev children else children in
  ret (PyIter (PyList (PyProxy <$> children))).

Definition _getAttributeValue (c_node : ptr) (key default : pyobj)
  : M heap pyobj :=
  nt <- lift (getNsTag C key) ;;
  let '(ns, tag) := nt in
  match attributeValueFromNsName C c_node ns tag with
  | PyNone => ret default
  | result => ret result
  end.

Definition get (self : nat) (key default : pyobj) : M heap pyobj :=
  _assertNode self ;;;
  p <- load self ;;
  _getAttributeValue (_c_node p) key default.

Definition keys (self : nat) : M heap pyobj :=
  _assertNode self ;;;
  p <- load self ;;
  ret (collectAttributes C (_c_node p) 1).

Definition values (self : nat) : M heap pyobj :=
  _assertNode self ;;;
  p <- load self ;;
  ret (collectAttributes C (_c_node p) 2).

Definition items (self : nat) : M heap pyobj :=
  _assertNode self ;;;
  p <- load self ;;
  ret (collectAttributes C (_c_node p) 3).

Definition getparent (self : nat) : M heap pyobj :=
  _assertNode self ;;;
  p <- load self ;;
  match node_parent (_c_node p) with
  | None => ret PyNone
  | Some c_parent =>
      if isElement_at c_parent then
        p <- load self ;;
        el <- _newProxy (_source_proxy p) (Some c_parent) ;;
        ret (PyProxy el)
      else ret PyNone
  end.

Definition getnext (self : nat) : M heap pyobj :=
  _assertNode self ;;;
  p <- load self ;;
  match nextElement C (_c_node p) with
  | Some c_node =>
      p <- load self ;;
      el <- _newProxy (_source_proxy p) (Some c_node) ;;
      ret (PyProxy el)
  | None => ret PyNone
  end.

Definition getprevious (self : nat) : M heap pyobj :=
  _assertNode self ;;;
  p <- load self ;;
  match previousElement C (_c_node p) with
  | Some c_node =>
      p <- load self ;;
      el <- _newProxy (_source_proxy p) (Some c_node) ;;
      ret (PyProxy el)
  | None => ret PyNone
  end.

(** *** User code *)

(** What Python code can do with a proxy: read a property or call a
    method. *)
Inductive access :=
| a_tag | a_text | a_tail | a_attrib | a_prefix | a_sourceline
| a_getitem (index : Z)
| a_getslice (start stop : Z)
| a_len | a_nonzero | a_iter
| a_iterchildren (tag_wanted : pyobj) (reversed : bool)
| a_get (key default : pyobj)
| a_keys | a_values | a_items
| a_getchildren | a_getparent | a_getnext | a_getprevious.

Definition perform (a : access) (self : nat) : M heap pyobj :=
  match a with
  | a_tag => tag self
  | a_text => text self
  | a_tail => tail self
  | a_attrib => attrib self
  | a_prefix => prefix self
  | a_sourceline => sourceline self
  | a_getitem index => __getitem__ self index
  | a_getslice start stop => __getslice__ self start stop
  | a_len => __len__ self
  | a_nonzero => __nonzero__ self
  | a_iter => __iter__ self
  | a_iterchildren t r => iterchildren self t r
  | a_get key default => get self key default
  | a_keys => keys self
  | a_values => values self
  | a_items => items self
  | a_getchildren => getchildren self
  | a_getparent => getparent self
  | a_getnext => getnext self
  | a_getprevious => getprevious self
  end.

(** A terminating piece of user code, as far as the proxies see it: it
    returns, raises, or makes one access and goes on with what the
    access gave, value or exception (which it may catch). *)
Inductive code :=
| Return (v : pyobj)
| Throw (e : exn)
| Access (a : access) (self : nat) (k : result pyobj -> code).

Fixpoint run (c : code) : M heap pyobj :=
  match c with
  | Return v => ret v
  | Throw e => raise e
  | Access a self k =>
      fun h => let '(h', r) := perform a self h in run (k r) h'
  end.

(** *** [PythonElementClassLookup] and [_lookup_class] *)

(** A lookup object: the part it inherits from
    [FallbackElementClassLookup], and its [lookup] method, which is given
    the document and the root proxy. *)
Record PythonElementClassLookup := {
  fallback_part : nat;
  lookup : nat -> nat -> code
}.

(** [PythonElementClassLookup.lookup] as the class defines it. *)
Definition default_lookup (doc element : nat) : code := Return PyNone.

Definition _lookup_class (state : PythonElementClassLookup) (doc : nat)
    (c_node : ptr) : M heap pyobj :=
  proxy <- _newProxy None c_node ;;
  cls <- run (lookup state doc proxy) ;;
  _freeProxies (Some proxy) ;;;
  match cls with
  | PyNone => lift (callLookupFallback C (fallback_part state) doc c_node)
  | _ => ret cls
  end.

End Proxy.

(** *** Reading a heap *)

Definition mk_proxy (c : ptr) (s : option nat) (d : option (list nat))
  : _ElementProxy :=
  {| _c_node := c; _source_proxy := s; _dependent_proxies := d |}.

(** The accesses whose code starts with [self._assertNode()], directly
    or through [getchildren]. *)
Definition checks_node (a : access) : bool :=
  match a with
  | a_getitem _ | a_getslice _ _ => false
  | _ => true
  end.

(** The references in a root proxy's [_dependent_proxies]. *)
Definition registry (h : heap) (root : nat) : list nat :=
  match h !! root with
  | Some p => default [] (_dependent_proxies p)
  | None => []
  end.

(** A proxy that has been invalidated. *)
Definition invalidated (p : _ElementProxy) : bool :=
  match _c_node p with None => true | Some _ => false end.

Definition is_assertion_failure {A} (r : result A) : bool :=
  match r with
  | Raise (Exn AssertionError _) => true
  | _ => false
  end.

(** One step of a proxy graph: some proxy of the heap hands its
    [_source_proxy] to [_newProxy]. *)
Inductive spawn : heap -> heap -> Prop :=
| spawn_from (h : heap) (self : nat) (p : _ElementProxy) (c : ptr) :
    h !! self = Some p ->
    spawn h (fst (_newProxy (_source_proxy p) c h)).

(** A computation that only changes the heap by [spawn] steps. *)
Definition spawning {A} (c : M heap A) : Prop :=
  forall h, rtc spawn h (fst (c h)).

(** The graph of the root proxy [root]: the root is its own source and
    has a registry; every proxy whose source is the root is in the
    registry; the registry holds proxies of the heap. *)
Record graph_inv (root : nat) (h : heap) : Prop := {
  inv_root :
    exists p l,
      h !! root = Some p /\ _source_proxy p = Some root
      /\ _dependent_proxies p = Some l;
  inv_registered :
    forall i q,
      h !! i = Some q -> _source_proxy q = Some root ->
      i ∈ registry h root;
  inv_registry_live :
    forall i, i ∈ registry h root -> (i < length h)%nat
}.

(** Every reference a proxy of the heap holds denotes a proxy of the
    heap, as every reference of a Python program does. *)
Definition refs_live (h : heap) : Prop :=
  forall i q s, h !! i = Some q -> _source_proxy q = Some s ->
                (s < length h)%nat.

(** Every proxy of the heap belongs to the graph of [root]. *)
Definition all_from (root : nat) (h : heap) : Prop :=
  forall i q, h !! i = Some q -> _source_proxy q = Some root.

(** *** The functions of [cetree], from the specification *)

Section SpecModel.
Variable D : xmlNode.
Variable is_elem : xmlElementType -> bool.

Definition elem_at (a : addr) : bool :=
  match node_type D (Some a) with
  | Some t => is_elem t
  | None => false
  end.

(** The element children of a node, in document order. *)
Definition element_children (c_node : ptr) : list addr :=
  List.filter elem_at (sibling_chain D (node_children D c_node)).

(** Modelled from the spec: [cetree.findChild] is declared in
    [etreepublic.pxd] and defined in [lxml.etree], neither of which is
    among the sources.  "Indexed child access: returns the Nth
    element-type child (skipping non-element siblings); fails with an
    index error if out of range": the Nth element child, [NULL] when
    there is none.  A negative index counts from the last element child,
    as Python's indexing does. *)
Definition spec_findChild (c_node : ptr) (index : Z) : ptr :=
  if 0 <=? index
  then element_children c_node !! Z.to_nat index
  else rev (element_children c_node) !! Z.to_nat (- index - 1).

(** Modelled from the spec: [cetree.findChildBackwards] is missing as
    well.  "Truthiness: true iff at least one element-type child
    exists": the element children counted from the last. *)
Definition spec_findChildBackwards (c_node : ptr) (index : Z) : ptr :=
  if 0 <=? index
  then rev (element_children c_node) !! Z.to_nat index
  else NULL.

(** Modelled from the spec: [cetree.nextElement] and
    [cetree.previousElement] are missing.  "text-only neighbors are
    skipped when finding element siblings": the nearest following and
    preceding sibling that is an element. *)
Definition spec_nextElement (c_node : ptr) : ptr :=
  head (List.filter elem_at (List.tl (sibling_chain D c_node))).

Definition spec_previousElement (c_node : ptr) : ptr :=
  match c_node with
  | Some (i :: up) =>
      last (List.filter elem_at ((fun j => j :: up) <$> seq 0 i))
  | _ => NULL
  end.

Definition node_at (c_node : ptr) : option xmlNode :=
  match c_node with
  | Some a => deref D a
  | None => None
  end.

(** A name in the [{namespace}name] form, or bare. *)
Definition qualified (href : option string) (local : string) : string :=
  match href with
  | Some h => String "{"%char (h +:+ String "}"%char local)
  | None => local
  end.

(** Modelled from the spec: [cetree.namespacedName] is missing.  "tag
    (qualified name)". *)
Definition spec_namespacedName (c_node : ptr) : pyobj :=
  match node_at c_node with
  | Some n => PyStr (qualified (ns_href <$> ns n) (name n))
  | None => PyNone
  end.

(** The text of the leading text nodes of a sibling list. *)
Fixpoint leading_text (l : list xmlNode) : option string :=
  match l with
  | n :: rest =>
      match type n with
      | XML_TEXT_NODE | XML_CDATA_SECTION_NODE =>
          Some (content n +:+ default EmptyString (leading_text rest))
      | _ => None
      end
  | [] => None
  end.

Definition opt_str (o : option string) : pyobj :=
  match o with Some s => PyStr s | None => PyNone end.

(** Modelled from the spec: [cetree.textOf] and [cetree.tailOf] are
    missing.  "text content, tail text": the text before the first
    child element and the text after the node. *)
Definition spec_textOf (c_node : ptr) : pyobj :=
  match node_at c_node with
  | Some n => opt_str (leading_text (children n))
  | None => PyNone
  end.

Definition spec_tailOf (c_node : ptr) : pyobj :=
  match c_node with
  | Some (i :: up) =>
      match deref D up with
      | Some p => opt_str (leading_text (drop (S i) (children p)))
      | None => PyNone
      end
  | _ => PyNone
  end.

(** Modelled from the spec: [tree.xmlGetLineNo] is libxml2's.
    "Line-number lookup for a given node". *)
Definition spec_xmlGetLineNo (c_node : ptr) : Z :=
  match node_at c_node with
  | Some n => line n
  | None => -1
  end.

Definition node_properties (c_node : ptr) : list xmlAttr :=
  match node_at c_node with
  | Some n => properties n
  | None => []
  end.

Definition attr_key (a : xmlAttr) : string :=
  qualified (attr_href a) (attr_name a).

(** Modelled from the spec: [cetree.collectAttributes] is missing.
    "[keys()], [values()], [items()]": with 1 the names of the node's
    attributes, with 2 their values, with 3 the (name, value) pairs, in
    the order the node holds them. *)
Definition spec_collectAttributes (c_node : ptr) (collecttype : Z) : pyobj :=
  PyList
    ((fun a =>
        if collecttype =? 1 then PyStr (attr_key a)
        else if collecttype =? 2 then PyStr (attr_value a)
        else PyTuple [PyStr (attr_key a); PyStr (attr_value a)])
       <$> node_properties c_node).

(** The text up to the first closing brace, and the text after it. *)
Fixpoint split_brace (s : string) : option (string * string) :=
  match s with
  | EmptyString => None
  | String c rest =>
      if Ascii.eqb c "}"%char then Some (EmptyString, rest)
      else
        match split_brace rest with
        | Some (n, t) => Some (String c n, t)
        | None => None
        end
  end.

(** Modelled from the spec: [cetree.getNsTag] is missing.
    "namespace-qualified key resolution (either a bare name or a
    [{namespace}name] form)". *)
Definition spec_getNsTag (key : pyobj) : result (option string * string) :=
  match key with
  | PyStr (String c rest as s) =>
      if Ascii.eqb c "{"%char then
        match split_brace rest with
        | Some (n, t) => Ok (Some n, t)
        | None => Raise (Exn ValueError "Invalid tag name")
        end
      else Ok (None, s)
  | PyStr EmptyString => Ok (None, EmptyString)
  | _ => Raise (Exn (OtherError 0) "expected a string")
  end.

Definition opt_string_eqb (a b : option string) : bool :=
  match a, b with
  | Some x, Some y => String.eqb x y
  | None, None => true
  | _, _ => false
  end.

(** Modelled from the spec: [cetree.attributeValueFromNsName] is
    missing.  "Namespace-aware attribute lookup by (namespace-or-none,
    local-name)": the value of the first attribute with that namespace
    and local name, [None] when the node has none. *)
Definition spec_attributeValueFromNsName (c_node : ptr)
    (c_href : option string) (c_name : string) : pyobj :=
  match List.find
          (fun a => opt_string_eqb (attr_href a) c_href
                    && String.eqb (attr_name a) c_name)
          (node_properties c_node) with
  | Some a => PyStr (attr_value a)
  | None => PyNone
  end.

(** Modelled from the spec: [cetree.callLookupFallback] is missing.
    "delegate to the configured fallback lookup mechanism with the same
    node": here the fallback gives every node of the document the class
    numbered by the lookup's fallback and refuses [NULL]. *)
Definition spec_callLookupFallback (fallback doc : nat) (c_node : ptr)
  : result pyobj :=
  match c_node with
  | Some _ => Ok (PyClass fallback)
  | None => Raise (Exn (OtherError 1) "no node")
  end.

Definition spec_cetree : cetree := {|
  _isElement := is_elem;
  xmlGetLineNo := spec_xmlGetLineNo;
  namespacedName := spec_namespacedName;
  textOf := spec_textOf;
  tailOf := spec_tailOf;
  pyunicode := PyStr;
  collectAttributes := spec_collectAttributes;
  findChild := spec_findChild;
  findChildBackwards := spec_findChildBackwards;
  nextElement := spec_nextElement;
  previousElement := spec_previousElement;
  getNsTag := spec_getNsTag;
  attributeValueFromNsName := spec_attributeValueFromNsName;
  callLookupFallback := spec_callLookupFallback
|}.

End SpecModel.

(** The element children of a node, as nodes. *)
Definition element_nodes (is_elem : xmlElementType -> bool)
    (l : list xmlNode) : list xmlNode :=
  List.filter (fun k => is_elem (type k)) l.

(** Well-formedness of an attribute as a namespace-aware parser builds
    it: a namespace name holds no closing brace, and a name without
    namespace does not start with an opening one. *)
Fixpoint no_closing_brace (s : string) : bool :=
  match s with
  | EmptyString => true
  | String c rest => negb (Ascii.eqb c "}"%char) && no_closing_brace rest
  end.

Definition starts_with_brace (s : string) : bool :=
  match s with
  | String c _ => Ascii.eqb c "{"%char
  | EmptyString => false
  end.

Definition wf_attr (x : xmlAttr) : bool :=
  match attr_href x with
  | Some h => no_closing_brace h
  | None => negb (starts_with_brace (attr_name x))
  end.

(** The expanded name of an attribute; an element has no two attributes
    with the same one. *)
Definition attr_id (x : xmlAttr) : option string * string :=
  (attr_href x, attr_name x).

(** "element-type child": only element nodes count as elements. *)
Definition element_only (t : xmlElementType) : bool :=
  match t with XML_ELEMENT_NODE => true | _ => false end.

(** *** A small document

    [<root a="1" {urn:x}b="2"><e0/>text<e2/></root>] *)

Definition leaf (t : xmlElementType) (nm : string) : xmlNode :=
  {| type := t; name := nm; ns := None; properties := [];
     content := EmptyString; line := 1; children := [] |}.

Definition sample_root : xmlNode :=
  {| type := XML_ELEMENT_NODE; name := "root"; ns := None;
     properties :=
       [ {| attr_href := None; attr_name := "a"; attr_value := "1" |};
         {| attr_href := Some "urn:x"; attr_name := "b"; attr_value := "2" |} ];
     content := EmptyString; line := 1;
     children :=
       [ leaf XML_ELEMENT_NODE "e0";
         {| type := XML_TEXT_NODE; name := "text"; ns := None;
            properties := []; content := "c1"; line := 1; children := [] |};
         leaf XML_ELEMENT_NODE "e2" ] |}.

Definition sample_doc : xmlNode :=
  {| type := XML_DOCUMENT_NODE; name := EmptyString; ns := None;
     properties := []; content := EmptyString; line := 0;
     children := [sample_root] |}.

(** The address of [<root>] in [sample_doc]. *)
Definition sample_root_addr : addr := [0%nat].

(** *** More ways to read a heap *)

(** The accesses that never call [_newProxy]. *)
Definition read_only (a : access) : bool :=
  match a with
  | a_tag | a_text | a_tail | a_attrib | a_prefix | a_sourceline
  | a_len | a_nonzero | a_get _ _ | a_keys | a_values | a_items => true
  | _ => false
  end.

(** [h'] has every proxy of [h], each with the node and the source it
    has in [h]. *)
Definition keeps_proxies (h h' : heap) : Prop :=
  (length h <= length h')%nat
  /\ forall i q,
       h !! i = Some q ->
       exists q', h' !! i = Some q' /\ _c_node q' = _c_node q
                  /\ _source_proxy q' = _source_proxy q.

(** The registry of a pass holds no proxy older than its root. *)
Definition registry_fresh (root : nat) (h : heap) : Prop :=
  forall i, i ∈ registry h root -> (root <= i)%nat.

(** [el.tag == tag] for a proxy [el] on the node [c_node]. *)
Definition tag_matches (C : cetree) (tag_wanted : pyobj) (c_node : ptr)
  : bool :=
  match namespacedName C c_node, tag_wanted with
  | PyStr a, PyStr b => String.eqb a b
  | _, _ => false
  end.

(** The node of the proxy a reference denotes. *)
Definition node_of (h : heap) (el : nat) : ptr :=
  match h !! el with
  | Some q => _c_node q
  | None => NULL
  end.

(** A computation that leaves the heap as it found it. *)
Definition heap_pure {A} (c : M heap A) : Prop :=
  forall h, fst (c h) = h.

(** The heap a pass leaves behind when user code hands back control:
    the root proxy is made, user code runs, the graph is torn down. *)
Definition heap_after_pass (D : xmlNode) (C : cetree) (user : nat -> code)
    (c_node : ptr) (h0 : heap) : heap :=
  fst (_freeProxies (Some (length h0))
         (fst (run D C (user (length h0)) (fst (_newProxy None c_node h0))))).

(** *** User code that stays within its pass *)

(** One step of a proxy graph made through the proxy [self]: [self]
    hands its [_source_proxy] to [_newProxy]. *)
Inductive spawn_of (self : nat) : heap -> heap -> Prop :=
| spawn_of_self (h : heap) (p : _ElementProxy) (c : ptr) :
    h !! self = Some p ->
    spawn_of self h (fst (_newProxy (_source_proxy p) c h)).

(** A computation that only changes the heap by steps made through
    [self]. *)
Definition spawning_from (self : nat) {A} (c : M heap A) : Prop :=
  forall h, rtc (spawn_of self) h (fst (c h)).

(** User code run from the heap [h] makes every access on a proxy made
    from reference [n] on: with [n] the root proxy of a pass, on the
    proxies of that pass, and on none that an earlier pass left. *)
Fixpoint confined (D : xmlNode) (C : cetree) (n : nat) (c : code)
    (h : heap) : bool :=
  match c with
  | Return _ => true
  | Throw _ => true
  | Access a self k =>
      Nat.leb n self
      && (let '(h', r) := perform D C a self h in confined D C n (k r) h')
  end.

(** Every proxy from reference [n] on belongs to the graph of [n]. *)
Definition pass_sources (n : nat) (h : heap) : Prop :=
  forall i q, (n <= i)%nat -> h !! i = Some q -> _source_proxy q = Some n.

(** A heap an earlier pass left behind: its root proxy, torn down. *)
Definition older_heap : heap := [mk_proxy NULL (Some 0%nat) (Some [])].

End PyClassLookup.

(** * Properties of [Schematron] *)

Section SchematronProperties.
Import Schematron.

Lemma call_paths N c_schema etree :
  call_path N c_schema etree (__call__ N c_schema etree []).
Proof.
  unfold __call__, bind, lift, emit, raise, ret.
  destruct (_documentOrRaise N etree) as [doc|e]; [|constructor].
  destruct (_rootNodeOrRaise N etree) as [root|e]; [|constructor].
  cbn [app]. fold (call_options N).
  destruct (xmlSchematronNewValidCtxt N c_schema (call_options N)) as [v|].
  - cbn [app]. unfold verdict.
    set (r := xmlSchematronValidateDoc N v _).
    pose proof (path_evaluated N c_schema etree v
                  (_fakeRootDoc N (_c_doc doc) (_c_node root)) r) as P.
    unfold verdict in P. fold r in P.
    destruct (r =? -1); [exact P|]. destruct (r =? 0); exact P.
  - cbn [app]. constructor.
Qed.

Lemma filter_ne_singleton (c : nat) : filter (fun x => x <> c) [c] = [].
Proof.
  rewrite filter_cons, filter_nil. destruct (decide (c <> c)); congruence.
Qed.

(** C1 as stated fails: with an evaluation step that returns [-2], a
    negative code, the call returns [False] and raises nothing. *)
Lemma call_negative_code_returns_false :
  let N := sample_natives true (-2) in
  evaluation_code (fst (__call__ N 20%nat 0%nat [])) = Some (-2)
  /\ snd (__call__ N 20%nat 0%nat []) = Ok false.
Proof. split; reflexivity. Qed.

(** C1, amended: when the evaluation step of a validation call returns
    the code [r], [__call__] returns [True] for [r = 0], raises
    [SchematronValidateError] for [r = -1], and returns [False] for every
    other code, positive or negative. *)
Theorem call_maps_return_code (N : natives) (c_schema : nat)
    (etree : PyObject) (r : Z) :
  evaluation_code (fst (__call__ N c_schema etree [])) = Some r ->
  snd (__call__ N c_schema etree []) = verdict r
  /\ (r = 0 -> snd (__call__ N c_schema etree []) = Ok true)
  /\ (r = -1 ->
      snd (__call__ N c_schema etree [])
      = Raise (Exn SchematronValidateError
                 "Internal error in Schematron validation"))
  /\ (r <> 0 -> r <> -1 -> snd (__call__ N c_schema etree []) = Ok false).
Proof.
  intros Hcode.
  destruct (call_paths N c_schema etree) as [e| |v d r']; cbn in Hcode |- *;
    try discriminate.
  injection Hcode as ->.
  split; [reflexivity|]. unfold verdict.
  split; [|split].
  - intros ->. reflexivity.
  - intros ->. reflexivity.
  - intros H0 H1.
    destruct (Z.eqb_spec r (-1)); [contradiction|].
    destruct (Z.eqb_spec r 0); [contradiction|]. reflexivity.
Qed.

Lemma call_maps_return_code_witness :
  evaluation_code (fst (__call__ (sample_natives true 3) 20%nat 0%nat [])) = Some 3
  /\ snd (__call__ (sample_natives true 3) 20%nat 0%nat []) = Ok false.
Proof.
  split; [reflexivity|].
  apply (call_maps_return_code (sample_natives true 3) 20%nat 0%nat 3);
    [reflexivity|lia|lia].
Defined.

(** C4: whichever way a validation call ends (a verdict, the failure to
    create the validation context, or an internal error of the
    evaluation), the validation context and the artificial root document
    it created are freed, the error log is disconnected and the
    interpreter lock is held when it returns or raises. *)
Theorem call_releases_session (N : natives) (c_schema : nat)
    (etree : PyObject) :
  log_connected (fst (__call__ N c_schema etree [])) = false
  /\ live_valid_ctxts (fst (__call__ N c_schema etree [])) = []
  /\ live_fake_docs (fst (__call__ N c_schema etree [])) = []
  /\ gil_held (fst (__call__ N c_schema etree [])) = true.
Proof.
  destruct (call_paths N c_schema etree) as [e| |v d r]; cbn [fst].
  - repeat split.
  - repeat split.
  - unfold log_connected, live_valid_ctxts, live_fake_docs, gil_held.
    cbn [foldl]. rewrite !filter_ne_singleton. repeat split.
Qed.

(** The three exits of C4 are all taken by some call. *)
Lemma call_exits_reached :
  snd (__call__ (sample_natives true 0) 20%nat 0%nat []) = Ok true
  /\ snd (__call__ natives_without_valid_ctxt 20%nat 0%nat [])
     = Raise (Exn SchematronError "Failed to create validation context")
  /\ snd (__call__ (sample_natives true (-1)) 20%nat 0%nat [])
     = Raise (Exn SchematronValidateError
                "Internal error in Schematron validation").
Proof. repeat split. Qed.

(** C8: when both a document and a file are given, [__init__] does what
    it does for the document alone: the same trace, the same schema or
    the same exception, and the file loader is never called. *)
Theorem init_document_takes_priority (N : natives) (e f : PyObject)
    (t : trace) :
  __init__ N (Some e) (Some f) t = __init__ N (Some e) None t
  /\ existsb is_file_parser_ctxt (fst (__init__ N (Some e) (Some f) [])) = false.
Proof.
  split; [reflexivity|].
  unfold __init__, parser_ctxt_from_tree, bind, lift, emit, raise, ret.
  destruct (ENABLE_SCHEMATRON N); cbn [negb]; [|reflexivity].
  destruct (_documentOrRaise N e) as [doc|x]; [|reflexivity].
  destruct (_rootNodeOrRaise N e) as [root|x]; [|reflexivity].
  cbn [app].
  destruct (xmlSchematronNewDocParserCtxt N _) as [pc|]; [|reflexivity].
  cbn [app].
  destruct (xmlSchematronParse N pc) as [sc|]; reflexivity.
Qed.

(** C9 as stated fails: in a build without Schematron support, compiling
    with neither a document nor a file raises [SchematronError], which is
    no [SchematronParseError]. *)
Lemma init_without_support_is_no_parse_error :
  exists e,
    snd (__init__ (sample_natives false 0) None None []) = Raise e
    /\ isinstance e SchematronParseError = false.
Proof. eexists. split; reflexivity. Qed.

(** C9, amended: compiling with neither a document nor a file always
    fails, and before anything is allocated or called: with
    [SchematronParseError] in a build with Schematron support, with
    [SchematronError] in a build without. *)
Theorem init_without_source_fails (N : natives) (t : trace) :
  __init__ N None None t
  = (t, Raise (if ENABLE_SCHEMATRON N
               then Exn SchematronParseError "No tree or file given"
               else Exn SchematronError
                      "lxml.etree was compiled without Schematron support."))
  /\ parser_ctxts_allocated (fst (__init__ N None None [])) = [].
Proof.
  assert (forall t',
            __init__ N None None t'
            = (t', Raise (if ENABLE_SCHEMATRON N
                          then Exn SchematronParseError "No tree or file given"
                          else Exn SchematronError
                                 "lxml.etree was compiled without Schematron support.")))
    as E.
  { intros t'. unfold __init__. destruct (ENABLE_SCHEMATRON N); reflexivity. }
  split; [apply E|]. now rewrite E.
Qed.

End SchematronProperties.

(** * Properties of the proxies *)

Section ProxyProperties.
Import PyClassLookup.

(** ** The tree *)

Lemma subtree_app (n : xmlNode) (p q : list nat) :
  subtree n (p ++ q) =
  match subtree n p with Some m => subtree m q | None => None end.
Proof.
  revert n. induction p as [|i p IH]; intros n; cbn; [reflexivity|].
  destruct (children n !! i); [apply IH|reflexivity].
Qed.

Lemma deref_cons (D : xmlNode) (i : nat) (up : addr) :
  deref D (i :: up) =
  match deref D up with Some p => children p !! i | None => None end.
Proof.
  unfold deref. cbn [rev]. rewrite subtree_app.
  destruct (subtree D (rev up)) as [p|]; [|reflexivity].
  cbn. now destruct (children p !! i).
Qed.

(** [sibling_chain] is the sequence of nodes the loop visits: the node,
    then the chain of its [next]. *)
Lemma sibling_chain_unfold (D : xmlNode) (a : addr) :
  sibling_chain D (Some a) = a :: sibling_chain D (node_next D (Some a)).
Proof.
  destruct a as [|i up]; [reflexivity|].
  unfold sibling_chain at 1, node_next.
  rewrite (deref_cons D (S i) up).
  destruct (deref D up) as [p|] eqn:Ep; [|reflexivity].
  destruct (children p !! S i) as [c|] eqn:Ec.
  - apply lookup_lt_Some in Ec.
    unfold sibling_chain. rewrite Ep.
    replace (length (children p) - S i)%nat
      with (S (length (children p) - S (S i)))%nat by lia.
    reflexivity.
  - apply lookup_ge_None in Ec.
    replace (length (children p) - S i)%nat with 0%nat by lia.
    reflexivity.
Qed.

Lemma sibling_chain_children (D : xmlNode) (a : addr) (n : xmlNode) :
  deref D a = Some n ->
  sibling_chain D (node_children D (Some a))
  = (fun j => j :: a) <$> seq 0 (length (children n)).
Proof.
  intros E. unfold node_children. rewrite E.
  destruct (children n) as [|c l] eqn:Ec; [reflexivity|].
  unfold sibling_chain. rewrite E, Ec. cbn [length seq fmap list_fmap].
  now replace (S (length l) - 1)%nat with (length l) by lia.
Qed.

(** ** The heap operations *)

Lemma load_ok (h : heap) (self : nat) (p : _ElementProxy) :
  h !! self = Some p -> load self h = (h, Ok p).
Proof. intros E. unfold load. now rewrite E. Qed.

Lemma store_ok (h : heap) (self : nat) f (p : _ElementProxy) :
  h !! self = Some p -> store self f h = (<[self := f p]> h, Ok tt).
Proof. intros E. unfold store. now rewrite E. Qed.

Lemma assertNode_valid (h : heap) (self : nat) (p : _ElementProxy) a :
  h !! self = Some p -> _c_node p = Some a ->
  _assertNode self h = (h, Ok 0).
Proof.
  intros E Ec. unfold _assertNode, bind. rewrite (load_ok _ _ _ E), Ec.
  reflexivity.
Qed.

Lemma assertNode_invalid (h : heap) (self : nat) (p : _ElementProxy) :
  h !! self = Some p -> _c_node p = NULL ->
  _assertNode self h = (h, Raise (Exn AssertionError "Proxy invalidated!")).
Proof.
  intros E Ec. unfold _assertNode, bind. rewrite (load_ok _ _ _ E), Ec.
  reflexivity.
Qed.

Lemma lookup_snoc {A} (h : list A) (x : A) : (h ++ [x]) !! length h = Some x.
Proof. now apply list_lookup_middle. Qed.

Lemma insert_snoc {A} (h : list A) (x y : A) :
  <[length h := y]> (h ++ [x]) = h ++ [y].
Proof.
  rewrite insert_app_r_alt by lia. now rewrite Nat.sub_diag.
Qed.

(** [_newProxy(None, c_node)]: a root proxy, its own source, alone in its
    own registry. *)
Lemma newProxy_root (c : ptr) (h : heap) :
  _newProxy None c h
  = (h ++ [mk_proxy c (Some (length h)) (Some [length h])], Ok (length h)).
Proof.
  unfold _newProxy, bind, NEW_PROXY, store, ret.
  rewrite lookup_snoc, insert_snoc. cbn.
  rewrite lookup_snoc, insert_snoc. cbn.
  rewrite lookup_snoc, insert_snoc. reflexivity.
Qed.

(** [_newProxy(sourceProxy, c_node)]: the new proxy, and the append to
    the source's registry. *)
Lemma newProxy_child (s : nat) (c : ptr) (h : heap) :
  _newProxy (Some s) c h =
  let h1 := h ++ [mk_proxy c (Some s) None] in
  match h1 !! s with
  | Some q =>
      match _dependent_proxies q with
      | Some l =>
          (<[s := set_dependent_proxies (Some (l ++ [length h])) q]> h1,
           Ok (length h))
      | None => (h1, Raise (Exn SystemError "bad internal call"))
      end
  | None => (h1, Raise dangling)
  end.
Proof.
  unfold _newProxy, bind, NEW_PROXY, store, ret, PyList_Append_dependent,
    bind, load, raise.
  rewrite lookup_snoc, insert_snoc. cbn.
  rewrite lookup_snoc, insert_snoc. cbn.
  change (set_source_proxy (Some s) (set_c_node c _))
    with (mk_proxy c (Some s) None).
  destruct ((h ++ [_]) !! s) as [q|] eqn:E; [|reflexivity].
  destruct (_dependent_proxies q); [|reflexivity].
  now rewrite (store_ok _ _ _ _ E).
Qed.

(** What a call of [_newProxy] does to the heap: one more proxy, with
    the node and the source it was given; the other proxies keep their
    node and source, and only the source's registry changes, by the new
    reference. *)
Lemma newProxy_effect (sp : option nat) (c : ptr) (h : heap) :
  let n := length h in
  let h' := fst (_newProxy sp c h) in
  let r := snd (_newProxy sp c h) in
  length h' = S n
  /\ (exists x,
        h' !! n = Some x /\ _c_node x = c
        /\ _source_proxy x = Some (default n sp)
        /\ (sp = None -> _dependent_proxies x = Some [n]))
  /\ (forall i q,
        h !! i = Some q ->
        exists q',
          h' !! i = Some q' /\ _c_node q' = _c_node q
          /\ _source_proxy q' = _source_proxy q
          /\ (_dependent_proxies q' = _dependent_proxies q
              \/ (sp = Some i /\ r = Ok n
                  /\ exists l, _dependent_proxies q = Some l
                       /\ _dependent_proxies q' = Some (l ++ [n]))))
  /\ (forall s q l,
        sp = Some s -> h !! s = Some q -> _dependent_proxies q = Some l ->
        r = Ok n
        /\ exists q', h' !! s = Some q'
             /\ _dependent_proxies q' = Some (l ++ [n])).
Proof.
  destruct sp as [s|]; cbn zeta.
  - rewrite newProxy_child. cbn zeta.
    set (x := mk_proxy c (Some s) None).
    destruct (decide (s < length h)%nat) as [Hs|Hs].
    + destruct (lookup_lt_is_Some_2 h s Hs) as [q Eq].
      rewrite (lookup_app_l_Some _ _ _ _ Eq).
      destruct (_dependent_proxies q) as [l|] eqn:Ed; cbn [fst snd].
      * split; [now rewrite length_insert, length_app, Nat.add_comm|].
        split.
        { exists x. rewrite list_lookup_insert_ne by lia.
          rewrite lookup_snoc. repeat split; congruence. }
        split.
        { intros i q0 Ei. destruct (decide (i = s)) as [->|Hne].
          - rewrite Eq in Ei. injection Ei as <-.
            eexists. rewrite list_lookup_insert_eq
              by (rewrite length_app; cbn; lia).
            split; [reflexivity|]. cbn. repeat split.
            right. repeat split. eauto.
          - exists q0. rewrite list_lookup_insert_ne by congruence.
            rewrite (lookup_app_l_Some _ _ _ _ Ei). auto. }
        intros s' q0 l0 [= <-] Ei El. rewrite Eq in Ei. injection Ei as <-.
        rewrite Ed in El. injection El as <-.
        split; [reflexivity|]. eexists.
        rewrite list_lookup_insert_eq by (rewrite length_app; cbn; lia).
        split; reflexivity.
      * split; [now rewrite length_app, Nat.add_comm|].
        split.
        { exists x. rewrite lookup_snoc. repeat split; congruence. }
        split.
        { intros i q0 Ei. exists q0.
          rewrite (lookup_app_l_Some _ _ _ _ Ei). auto. }
        intros s' q0 l0 [= <-] Ei El. congruence.
    + assert (h !! s = None) as En by (apply lookup_ge_None; lia).
      assert (forall y, (_dependent_proxies <$> ((h ++ [x]) !! s)) = Some (Some y)
                        -> False) as Hno.
      { intros y. destruct (decide (s = length h)) as [->|Hne].
        - rewrite lookup_snoc. discriminate.
        - rewrite (lookup_ge_None_2 (h ++ [x]) s)
            by (rewrite length_app; cbn; lia). discriminate. }
      destruct ((h ++ [x]) !! s) as [q|] eqn:Eq.
      * destruct (_dependent_proxies q) as [l|] eqn:Ed;
          [exfalso; apply (Hno l); cbn; now rewrite Ed|].
        cbn [fst snd].
        split; [now rewrite length_app, Nat.add_comm|].
        split.
        { exists x. rewrite lookup_snoc. repeat split; congruence. }
        split.
        { intros i q0 Ei. exists q0.
          rewrite (lookup_app_l_Some _ _ _ _ Ei). auto. }
        intros s' q0 l0 [= <-] Ei El. congruence.
      * cbn [fst snd].
        split; [now rewrite length_app, Nat.add_comm|].
        split.
        { exists x. rewrite lookup_snoc. repeat split; congruence. }
        split.
        { intros i q0 Ei. exists q0.
          rewrite (lookup_app_l_Some _ _ _ _ Ei). auto. }
        intros s' q0 l0 [= <-] Ei El. congruence.
  - rewrite newProxy_root. cbn [fst snd].
    split; [now rewrite length_app, Nat.add_comm|].
    split.
    { eexists. rewrite lookup_snoc. repeat split. }
    split.
    { intros i q0 Ei. exists q0.
      rewrite (lookup_app_l_Some _ _ _ _ Ei). auto. }
    intros s' q0 l0 [=].
Qed.

(** ** The registry invariant *)

Lemma registry_lookup (h : heap) (root : nat) (p : _ElementProxy) l :
  h !! root = Some p -> _dependent_proxies p = Some l -> registry h root = l.
Proof. intros E El. unfold registry. now rewrite E, El. Qed.

Lemma spawn_graph_inv (root : nat) (h h' : heap) :
  spawn h h' -> graph_inv root h -> graph_inv root h'.
Proof.
  intros [h0 self p c Ep] [(pr & l & Er & Es & El) Hreg Hlive].
  destruct (newProxy_effect (_source_proxy p) c h0)
    as (Hlen & (x & Ex & _ & Exs & _) & Hold & Happ).
  set (h1 := fst (_newProxy (_source_proxy p) c h0)) in *.
  assert (root < length h0)%nat as Hroot by (eapply lookup_lt_Some; eauto).
  destruct (Hold root pr Er) as (pr' & Er' & _ & Es' & Ed').
  assert (exists l', _dependent_proxies pr' = Some l'
                     /\ (l' = l \/ (l' = l ++ [length h0]
                                    /\ _source_proxy p = Some root)))
    as (l' & El' & Hl').
  { destruct Ed' as [Ed'|(Hsp & _ & l0 & El0 & El0')].
    - exists l. split; [congruence|auto].
    - exists (l ++ [length h0]). split; [congruence|]. right. split; congruence. }
  rewrite (registry_lookup h0 root pr l Er El) in Hreg, Hlive.
  split.
  - exists pr', l'. repeat split; congruence.
  - intros i q' Ei Esrc. rewrite (registry_lookup h1 root pr' l' Er' El').
    destruct (decide (i = length h0)) as [->|Hne].
    + rewrite Ex in Ei. injection Ei as <-.
      rewrite Exs in Esrc. injection Esrc as Hd.
      destruct (_source_proxy p) as [s|] eqn:Esp; cbn in Hd; [subst s|lia].
      destruct (Happ root pr l eq_refl Er El) as (_ & q'' & Eq'' & Ed'').
      rewrite Er' in Eq''. injection Eq'' as <-.
      rewrite El' in Ed''. injection Ed'' as ->.
      apply elem_of_app. right. now apply list_elem_of_singleton.
    + assert (i < length h0)%nat as Hi
        by (apply lookup_lt_Some in Ei; lia).
      destruct (lookup_lt_is_Some_2 h0 i Hi) as [q Eq].
      destruct (Hold i q Eq) as (q'' & Eq'' & _ & Esq & _).
      rewrite Ei in Eq''. injection Eq'' as <-.
      assert (i ∈ l) as Hin by (apply (Hreg i q Eq); congruence).
      destruct Hl' as [->|[-> _]]; [exact Hin|].
      apply elem_of_app. now left.
  - intros i. rewrite (registry_lookup h1 root pr' l' Er' El'). intros Hin.
    rewrite Hlen.
    destruct Hl' as [->|[-> _]].
    + specialize (Hlive i Hin). lia.
    + apply elem_of_app in Hin as [Hin|Hin].
      * specialize (Hlive i Hin). lia.
      * apply list_elem_of_singleton in Hin. lia.
Qed.

Lemma spawn_all_from (root : nat) (h h' : heap) :
  spawn h h' -> all_from root h -> all_from root h'.
Proof.
  intros [h0 self p c Ep] Hall i q' Ei.
  destruct (newProxy_effect (_source_proxy p) c h0)
    as (Hlen & (x & Ex & _ & Exs & _) & Hold & _).
  destruct (decide (i = length h0)) as [->|Hne].
  - rewrite Ex in Ei. injection Ei as <-.
    rewrite Exs, (Hall self p Ep). reflexivity.
  - assert (i < length h0)%nat as Hi by (apply lookup_lt_Some in Ei; lia).
    destruct (lookup_lt_is_Some_2 h0 i Hi) as [q Eq].
    destruct (Hold i q Eq) as (q'' & Eq'' & _ & Esq & _).
    rewrite Ei in Eq''. injection Eq'' as <-.
    rewrite Esq. exact (Hall i q Eq).
Qed.

Lemma spawns_graph_inv (root : nat) (h h' : heap) :
  rtc spawn h h' -> graph_inv root h -> graph_inv root h'.
Proof. induction 1; eauto using spawn_graph_inv. Qed.

Lemma spawns_all_from (root : nat) (h h' : heap) :
  rtc spawn h h' -> all_from root h -> all_from root h'.
Proof. induction 1; eauto using spawn_all_from. Qed.

(** ** Every access is a sequence of [spawn] steps *)

Section Accesses.
Variable D : xmlNode.
Variable C : cetree.

Lemma spawning_ret {A} (a : A) : spawning (ret a).
Proof. intros h. apply rtc_refl. Qed.

Lemma spawning_raise {A} (e : exn) : spawning (@raise heap A e).
Proof. intros h. apply rtc_refl. Qed.

Lemma spawning_lift {A} (r : result A) : spawning (lift r).
Proof. intros h. apply rtc_refl. Qed.

Lemma spawning_bind {A B} (c : M heap A) (k : A -> M heap B) :
  spawning c -> (forall a, spawning (k a)) -> spawning (bind c k).
Proof.
  intros Hc Hk h. unfold bind. specialize (Hc h).
  destruct (c h) as [h' [a|e]]; cbn [fst] in *; [|exact Hc].
  eapply rtc_trans; [exact Hc|apply Hk].
Qed.

Lemma spawning_assert (self : nat) : spawning (_assertNode self).
Proof.
  intros h. unfold _assertNode, bind, load.
  destruct (h !! self) as [p|]; [|apply rtc_refl].
  destruct (_c_node p); apply rtc_refl.
Qed.

(** Reading [self] and handing its source to [_newProxy]. *)
Lemma spawning_new {A} (self : nat) (c : ptr) (k : nat -> M heap A) :
  (forall el, spawning (k el)) ->
  spawning (p <- load self ;; el <- _newProxy (_source_proxy p) c ;; k el).
Proof.
  intros Hk h. unfold bind at 1. unfold load.
  destruct (h !! self) as [p|] eqn:Ep; [|apply rtc_refl].
  unfold bind.
  pose proof (spawn_from h self p c Ep) as Hs.
  destruct (_newProxy (_source_proxy p) c h) as [h' [el|e]]; cbn [fst] in *.
  - eapply rtc_l; [exact Hs|apply Hk].
  - now apply rtc_once.
Qed.

(** After the assertion, a body that reads [self] once. *)
Lemma spawning_load {A} (self : nat) (k : _ElementProxy -> M heap A) :
  (forall p, spawning (k p)) -> spawning (p <- load self ;; k p).
Proof.
  intros Hk. apply spawning_bind; [|exact Hk].
  intros h. unfold load. destruct (h !! self); apply rtc_refl.
Qed.

Lemma getslice_loop_spawning self stop chain c result :
  spawning (getslice_loop D C self stop chain c result).
Proof.
  revert c result. induction chain as [|a chain IH]; intros c result;
    cbn [getslice_loop]; [apply spawning_ret|].
  destruct (c <? stop); [|apply spawning_ret].
  destruct (isElement_at D C a); [|apply IH].
  apply spawning_new. intros el. apply IH.
Qed.

Lemma getchildren_loop_spawning self chain result :
  spawning (getchildren_loop D C self chain result).
Proof.
  revert result. induction chain as [|a chain IH]; intros result;
    cbn [getchildren_loop]; [apply spawning_ret|].
  destruct (isElement_at D C a); [|apply IH].
  apply spawning_new. intros el. apply IH.
Qed.

Lemma getchildren_refs_spawning self : spawning (getchildren_refs D C self).
Proof.
  apply spawning_bind; [apply spawning_assert|]. intros _.
  apply spawning_load. intros p. apply getchildren_loop_spawning.
Qed.

Lemma tag_spawning self : spawning (tag C self).
Proof.
  apply spawning_bind; [apply spawning_assert|]. intros _.
  apply spawning_load. intros p. apply spawning_ret.
Qed.

Lemma filter_by_tag_spawning t children :
  spawning (filter_by_tag C t children).
Proof.
  induction children as [|el rest IH]; cbn [filter_by_tag];
    [apply spawning_ret|].
  apply spawning_bind; [apply tag_spawning|]. intros t'.
  apply spawning_bind; [exact IH|]. intros kept.
  destruct t'; try apply spawning_ret.
  destruct t; try apply spawning_ret.
  destruct (String.eqb s s0); apply spawning_ret.
Qed.

Ltac spawning_simple :=
  apply spawning_bind; [apply spawning_assert|]; intros _;
  apply spawning_load; intros p;
  repeat match goal with
         | |- spawning (ret _) => apply spawning_ret
         | |- spawning (raise _) => apply spawning_raise
         | |- spawning (lift _) => apply spawning_lift
         | |- spawning (bind (load _) _) => apply spawning_new; intros ?
         | |- spawning (bind (lift _) _) =>
             apply spawning_bind; [apply spawning_lift|intros ?]
         | |- spawning (match ?x with _ => _ end) => destruct x
         | |- spawning (if ?x then _ else _) => destruct x
         | |- spawning (let '(_, _) := ?x in _) => destruct x
         end.

Lemma perform_spawning (a : access) (self : nat) :
  spawning (perform D C a self).
Proof.
  destruct a; cbn [perform].
  - apply tag_spawning.
  - unfold text. spawning_simple.
  - unfold tail. spawning_simple.
  - unfold attrib. spawning_simple.
  - unfold prefix. spawning_simple.
  - unfold sourceline. spawning_simple.
  - unfold __getitem__. apply spawning_load. intros p.
    destruct (findChild C (_c_node p) index); [|apply spawning_raise].
    apply spawning_new. intros el. apply spawning_ret.
  - unfold __getslice__. apply spawning_load. intros p.
    destruct (findChild C (_c_node p) start); [|apply spawning_ret].
    apply spawning_bind; [apply getslice_loop_spawning|].
    intros r. apply spawning_ret.
  - unfold __len__. spawning_simple.
  - unfold __nonzero__. spawning_simple.
  - unfold __iter__, getchildren.
    apply spawning_bind; [|intros r; apply spawning_ret].
    apply spawning_bind; [apply getchildren_refs_spawning|].
    intros r. apply spawning_ret.
  - unfold iterchildren.
    apply spawning_bind; [apply getchildren_refs_spawning|]. intros ch.
    apply spawning_bind; [|intros r; apply spawning_ret].
    destruct tag_wanted; try apply filter_by_tag_spawning.
    apply spawning_ret.
  - unfold get, _getAttributeValue. spawning_simple.
  - unfold keys. spawning_simple.
  - unfold values. spawning_simple.
  - unfold items. spawning_simple.
  - unfold getchildren.
    apply spawning_bind; [apply getchildren_refs_spawning|].
    intros r. apply spawning_ret.
  - unfold getparent. spawning_simple.
  - unfold getnext. spawning_simple.
  - unfold getprevious. spawning_simple.
Qed.

(** User code changes the heap by [spawn] steps only. *)
Lemma run_spawning (c : code) : spawning (run D C c).
Proof.
  induction c as [v|e|a self k IH]; cbn [run].
  - apply spawning_ret.
  - apply spawning_raise.
  - intros h. pose proof (perform_spawning a self h) as Hp.
    destruct (perform D C a self h) as [h' r]; cbn [fst] in Hp.
    eapply rtc_trans; [exact Hp|apply IH].
Qed.

End Accesses.

(** ** Teardown *)

Lemma for_each_invalidate (l : list nat) (h : heap) :
  (forall i, i ∈ l -> (i < length h)%nat) ->
  exists h',
    for_each l (fun el => store el (set_c_node NULL)) h = (h', Ok tt)
    /\ length h' = length h
    /\ forall i q',
         h' !! i = Some q' ->
         exists q,
           h !! i = Some q
           /\ _source_proxy q' = _source_proxy q
           /\ _dependent_proxies q' = _dependent_proxies q
           /\ (i ∈ l -> _c_node q' = NULL)
           /\ (i ∉ l -> q' = q).
Proof.
  revert h. induction l as [|x l IH]; intros h Hl; cbn [for_each].
  - exists h. repeat split. intros i q' Ei. exists q'.
    repeat split; [assumption|]. intros Hin. now apply elem_of_nil in Hin.
  - assert (x < length h)%nat as Hx by (apply Hl; left).
    destruct (lookup_lt_is_Some_2 h x Hx) as [p Ep].
    unfold bind. rewrite (store_ok _ _ _ _ Ep).
    destruct (IH (<[x := set_c_node NULL p]> h)) as (h' & Erun & Hlen & Hh').
    { intros i Hi. rewrite length_insert. apply Hl. now right. }
    exists h'. split; [exact Erun|].
    split; [now rewrite Hlen, length_insert|].
    intros i q' Ei. destruct (Hh' i q' Ei) as (q1 & E1 & Hs & Hd & Hin & Hout).
    destruct (decide (i = x)) as [->|Hne].
    + rewrite list_lookup_insert_eq in E1 by exact Hx. injection E1 as <-.
      exists p. repeat split; try assumption.
      * intros _. destruct (decide (x ∈ l)) as [Hxl|Hxl]; [now apply Hin|].
        now rewrite (Hout Hxl).
      * intros Hnot. exfalso. apply Hnot. left.
    + rewrite list_lookup_insert_ne in E1 by congruence.
      exists q1. repeat split; try assumption.
      * intros Hil. apply Hin. apply elem_of_cons in Hil as [->|Hil];
          [contradiction|exact Hil].
      * intros Hnot. apply Hout. intros Hil. apply Hnot. now right.
Qed.

(** [_freeProxies] on the root of a graph: it returns, every proxy of
    the registry has a [NULL] node afterwards, the sources are what they
    were, and the registry is empty. *)
Lemma freeProxies_effect (root : nat) (h : heap) :
  graph_inv root h ->
  exists h',
    _freeProxies (Some root) h = (h', Ok tt)
    /\ length h' = length h
    /\ registry h' root = []
    /\ forall i q',
         h' !! i = Some q' ->
         exists q,
           h !! i = Some q
           /\ _source_proxy q' = _source_proxy q
           /\ (i ∈ registry h root -> _c_node q' = NULL).
Proof.
  intros [(pr & l & Er & Es & El) Hreg Hlive].
  rewrite (registry_lookup h root pr l Er El) in *.
  destruct (for_each_invalidate l h Hlive) as (h1 & Erun & Hlen & Hh1).
  assert (root < length h1)%nat as Hroot
    by (rewrite Hlen; eapply lookup_lt_Some; eauto).
  destruct (lookup_lt_is_Some_2 h1 root Hroot) as [pr1 Er1].
  exists (<[root := set_dependent_proxies (Some []) pr1]> h1).
  split.
  { unfold _freeProxies, bind. rewrite (load_ok _ _ _ Er), El, Erun.
    now rewrite (store_ok _ _ _ _ Er1). }
  split; [now rewrite length_insert|].
  split.
  { unfold registry. now rewrite list_lookup_insert_eq by exact Hroot. }
  intros i q' Ei. destruct (decide (i = root)) as [->|Hne].
  - rewrite list_lookup_insert_eq in Ei by exact Hroot. injection Ei as <-.
    destruct (Hh1 root pr1 Er1) as (q & Eq & Hs & _ & Hin & _).
    exists q. repeat split; assumption.
  - rewrite list_lookup_insert_ne in Ei by congruence.
    destruct (Hh1 i q' Ei) as (q & Eq & Hs & _ & Hin & _).
    exists q. repeat split; assumption.
Qed.

(** The heap right after the root proxy of a pass is created. *)
Lemma new_root_graph_inv (c : ptr) (h : heap) :
  refs_live h -> graph_inv (length h) (fst (_newProxy None c h)).
Proof.
  intros Hlive. rewrite newProxy_root. cbn [fst].
  assert (registry (h ++ [mk_proxy c (Some (length h)) (Some [length h])])
            (length h) = [length h]) as Ereg.
  { unfold registry. now rewrite lookup_snoc. }
  split.
  - eexists _, _. rewrite lookup_snoc. repeat split.
  - intros i q Ei Es. rewrite Ereg. apply list_elem_of_singleton.
    destruct (decide (i = length h)) as [->|Hne]; [reflexivity|].
    exfalso.
    assert (i < length h)%nat as Hi.
    { apply lookup_lt_Some in Ei. rewrite length_app in Ei. cbn in Ei. lia. }
    rewrite lookup_app_l in Ei by exact Hi.
    specialize (Hlive i q (length h) Ei Es). lia.
  - intros i. rewrite Ereg, length_app. cbn.
    intros ->%list_elem_of_singleton. lia.
Qed.

Lemma new_root_all_from (c : ptr) :
  all_from 0 (fst (_newProxy None c [])).
Proof.
  rewrite newProxy_root. cbn. intros [|i] q Ei; [|discriminate].
  now injection Ei as <-.
Qed.

(** The graph of a pass at the moment user code hands back control. *)
Lemma pass_graph_inv D C (c : ptr) (user : code) (h0 : heap) :
  refs_live h0 ->
  graph_inv (length h0) (fst (run D C user (fst (_newProxy None c h0)))).
Proof.
  intros Hlive. eapply spawns_graph_inv; [apply run_spawning|].
  now apply new_root_graph_inv.
Qed.

(** ** The claims about the proxy graph *)

(** The teardown at the end of a pass: it returns, empties the registry,
    keeps every proxy's source, and leaves every proxy of the root's
    graph with a [NULL] node. *)
Lemma teardown_after_pass D C (c_node : ptr) (user : code) (h0 : heap) :
  refs_live h0 ->
  let root := length h0 in
  let h2 := fst (run D C user (fst (_newProxy None c_node h0))) in
  exists h3,
    _freeProxies (Some root) h2 = (h3, Ok tt)
    /\ registry h3 root = []
    /\ forall i q,
         h3 !! i = Some q ->
         (exists q2, h2 !! i = Some q2
                     /\ _source_proxy q = _source_proxy q2)
         /\ (_source_proxy q = Some root -> _c_node q = NULL).
Proof.
  intros Hlive root h2.
  pose proof (pass_graph_inv D C c_node user h0 Hlive) as Hinv.
  fold root h2 in Hinv.
  destruct (freeProxies_effect root h2 Hinv) as (h3 & Efree & _ & Ereg & Hh3).
  exists h3. split; [exact Efree|]. split; [exact Ereg|].
  intros i q Ei. destruct (Hh3 i q Ei) as (q2 & E2 & Hs & Hin).
  split; [eauto|].
  intros Es. apply Hin. apply (inv_registered _ _ Hinv i q2 E2). congruence.
Qed.

(** When user code returns, [_lookup_class] has torn the graph down
    before it returns or hands over to the fallback. *)
Lemma lookup_class_return_tears_down D C state (doc : nat) (c_node : ptr)
    (h0 h2 : heap) (cls : pyobj) :
  refs_live h0 ->
  run D C (lookup state doc (length h0)) (fst (_newProxy None c_node h0))
  = (h2, Ok cls) ->
  exists h3,
    _freeProxies (Some (length h0)) h2 = (h3, Ok tt)
    /\ _lookup_class D C state doc c_node h0
       = (h3, match cls with
              | PyNone => callLookupFallback C (fallback_part state) doc c_node
              | _ => Ok cls
              end)
    /\ forall i q, h3 !! i = Some q -> _source_proxy q = Some (length h0) ->
                   _c_node q = NULL.
Proof.
  intros Hlive Erun.
  destruct (teardown_after_pass D C c_node (lookup state doc (length h0))
              h0 Hlive) as (h3 & Efree & _ & Hh3).
  rewrite Erun in Efree, Hh3. cbn [fst] in Efree, Hh3.
  exists h3. split; [exact Efree|].
  split; [|intros i q Ei; exact (proj2 (Hh3 i q Ei))].
  unfold _lookup_class, bind at 1. rewrite newProxy_root.
  rewrite newProxy_root in Erun. cbn [fst] in Erun.
  unfold bind at 1. rewrite Erun. unfold bind. rewrite Efree.
  destruct cls; reflexivity.
Qed.

(** C3, where the code departs from it: a [lookup] that raises leaves
    [_lookup_class] before [_freeProxies] is reached.  The exception
    comes out, the root proxy still points at the node and is still in
    its registry, and reading it afterwards gives data. *)
Theorem lookup_class_raise_skips_teardown D C (fb doc : nat) (a : addr)
    (e : exn) (h0 : heap) :
  let root := length h0 in
  let state := {| fallback_part := fb; lookup := fun _ _ => Throw e |} in
  let h' := h0 ++ [mk_proxy (Some a) (Some root) (Some [root])] in
  _lookup_class D C state doc (Some a) h0 = (h', Raise e)
  /\ invalidated <$> h' !! root = Some false
  /\ registry h' root = [root]
  /\ tag C root h' = (h', Ok (namespacedName C (Some a))).
Proof.
  cbn zeta. split; [|split; [|split]].
  - unfold _lookup_class, bind. rewrite newProxy_root. reflexivity.
  - now rewrite lookup_snoc.
  - unfold registry. now rewrite lookup_snoc.
  - unfold tag, bind at 1.
    set (x := mk_proxy (Some a) (Some (length h0)) (Some [length h0])).
    rewrite (assertNode_valid _ _ x a (lookup_snoc h0 x) eq_refl).
    unfold bind. now rewrite (load_ok _ _ _ (lookup_snoc h0 x)).
Qed.

(** C5: when the hook's [lookup] returns [None] for a node, the class
    [_lookup_class] gives is the one the fallback gives for that node,
    which is also what the lookup class gives as it is defined, with no
    [lookup] of the user's. *)
Theorem none_hook_is_fallback D C state (doc : nat) (c_node : ptr)
    (h0 : heap) :
  refs_live h0 ->
  snd (run D C (lookup state doc (length h0))
         (fst (_newProxy None c_node h0))) = Ok PyNone ->
  snd (_lookup_class D C state doc c_node h0)
  = callLookupFallback C (fallback_part state) doc c_node
  /\ snd (_lookup_class D C state doc c_node h0)
     = snd (_lookup_class D C
              {| fallback_part := fallback_part state;
                 lookup := default_lookup |} doc c_node h0).
Proof.
  intros Hlive Hnone.
  assert (forall st,
            snd (run D C (lookup st doc (length h0))
                   (fst (_newProxy None c_node h0))) = Ok PyNone ->
            snd (_lookup_class D C st doc c_node h0)
            = callLookupFallback C (fallback_part st) doc c_node) as Hfb.
  { intros st Hst.
    destruct (run D C (lookup st doc (length h0))
                (fst (_newProxy None c_node h0))) as [h2 r] eqn:Erun.
    cbn [snd] in Hst. subst r.
    destruct (lookup_class_return_tears_down D C st doc c_node h0 h2 PyNone
                Hlive Erun) as (h3 & _ & Ecls & _).
    now rewrite Ecls. }
  split; [now apply Hfb|].
  rewrite (Hfb state Hnone). symmetry.
  now rewrite (Hfb {| fallback_part := fallback_part state;
                      lookup := default_lookup |} eq_refl).
Qed.

Lemma none_hook_is_fallback_witness :
  let C := spec_cetree sample_doc element_only in
  let state :=
    {| fallback_part := 7%nat;
       lookup := fun _ root =>
         Access a_tag root (fun _ =>
         Access a_getchildren root (fun _ => Return PyNone)) |} in
  snd (_lookup_class sample_doc C state 0%nat (Some sample_root_addr) [])
  = Ok (PyClass 7).
Proof.
  cbn zeta.
  apply (none_hook_is_fallback sample_doc
           (spec_cetree sample_doc element_only)
           {| fallback_part := 7%nat;
              lookup := fun _ root =>
                Access a_tag root (fun _ =>
                Access a_getchildren root (fun _ => Return PyNone)) |}
           0%nat (Some sample_root_addr) []).
  - intros i q s Ei. discriminate.
  - reflexivity.
Defined.

(** ** Access after the teardown *)

Lemma newProxy_no_assertion (sp : option nat) (c : ptr) (h : heap) :
  is_assertion_failure (snd (_newProxy sp c h)) = false.
Proof.
  destruct sp as [s|]; [|now rewrite newProxy_root].
  rewrite newProxy_child. cbn zeta.
  destruct ((h ++ [_]) !! s) as [q|]; [|reflexivity].
  destruct (_dependent_proxies q); reflexivity.
Qed.

Lemma getslice_loop_no_assertion D C self stop chain c result (h : heap) :
  is_assertion_failure (snd (getslice_loop D C self stop chain c result h))
  = false.
Proof.
  revert c result h. induction chain as [|a chain IH]; intros c result h;
    cbn [getslice_loop]; [reflexivity|].
  destruct (c <? stop); [|reflexivity].
  destruct (isElement_at D C a); [|apply IH].
  unfold bind at 1. unfold load.
  destruct (h !! self) as [p|]; [|reflexivity].
  unfold bind.
  pose proof (newProxy_no_assertion (_source_proxy p) (Some a) h) as Hn.
  destruct (_newProxy (_source_proxy p) (Some a) h) as [h' [el|e]];
    [apply IH|exact Hn].
Qed.

(** On an invalidated proxy, every access that checks the node fails
    with the assertion and leaves the heap as it is. *)
Lemma checked_access_fails D C (a : access) (self : nat)
    (p : _ElementProxy) (h : heap) :
  h !! self = Some p -> _c_node p = NULL -> checks_node a = true ->
  perform D C a self h
  = (h, Raise (Exn AssertionError "Proxy invalidated!")).
Proof.
  intros Ep Ec Hchk.
  pose proof (assertNode_invalid h self p Ep Ec) as Ha.
  destruct a; try discriminate Hchk; cbn [perform];
    unfold tag, text, tail, attrib, prefix, sourceline, __len__,
      __nonzero__, __iter__, iterchildren, get, keys, values, items,
      getchildren, getchildren_refs, getparent, getnext, getprevious;
    repeat (unfold bind at 1); now rewrite Ha.
Qed.

(** C2, where the code departs from it: [__getitem__] and
    [__getslice__] do not call [_assertNode].  On an invalidated proxy
    they hand the [NULL] node to [findChild] and go on with what it
    gives; whatever that is, no assertion fails. *)
Theorem index_and_slice_skip_the_assertion D C (self : nat)
    (p : _ElementProxy) (index start stop : Z) (h : heap) :
  h !! self = Some p -> _c_node p = NULL ->
  is_assertion_failure (snd (perform D C (a_getitem index) self h)) = false
  /\ is_assertion_failure (snd (perform D C (a_getslice start stop) self h))
     = false
  /\ perform D C (a_getitem index) self h
     = match findChild C NULL index with
       | None => (h, Raise (Exn IndexError "list index out of range"))
       | Some c =>
           let '(h', r) := _newProxy (_source_proxy p) (Some c) h in
           (h', match r with Ok el => Ok (PyProxy el) | Raise e => Raise e end)
       end.
Proof.
  intros Ep Ec.
  assert (perform D C (a_getitem index) self h
          = match findChild C NULL index with
            | None => (h, Raise (Exn IndexError "list index out of range"))
            | Some c =>
                let '(h', r) := _newProxy (_source_proxy p) (Some c) h in
                (h', match r with
                     | Ok el => Ok (PyProxy el)
                     | Raise e => Raise e
                     end)
            end) as Eitem.
  { cbn [perform]. unfold __getitem__, bind at 1.
    rewrite (load_ok _ _ _ Ep), Ec.
    destruct (findChild C NULL index) as [c|]; [|reflexivity].
    unfold bind at 1. rewrite (load_ok _ _ _ Ep). unfold bind, ret.
    destruct (_newProxy (_source_proxy p) (Some c) h) as [h' [el|e]];
      reflexivity. }
  split; [|split; [|exact Eitem]].
  - rewrite Eitem. destruct (findChild C NULL index) as [c|]; [|reflexivity].
    pose proof (newProxy_no_assertion (_source_proxy p) (Some c) h) as Hn.
    destruct (_newProxy (_source_proxy p) (Some c) h) as [h' [el|e]];
      [reflexivity|exact Hn].
  - cbn [perform]. unfold __getslice__, bind at 1.
    rewrite (load_ok _ _ _ Ep), Ec.
    destruct (findChild C NULL start) as [c|]; [|reflexivity].
    unfold bind, ret.
    pose proof (getslice_loop_no_assertion D C self stop
                  (sibling_chain D (Some c)) start [] h) as Hn.
    destruct (getslice_loop D C self stop (sibling_chain D (Some c)) start [] h)
      as [h' [r|e]]; [reflexivity|exact Hn].
Qed.

Lemma index_and_slice_skip_the_assertion_witness :
  let C := spec_cetree sample_doc element_only in
  let h := [mk_proxy NULL (Some 0%nat) (Some [])] in
  perform sample_doc C (a_getitem 0) 0 h
  = (h, Raise (Exn IndexError "list index out of range"))
  /\ perform sample_doc C a_len 0 h
     = (h, Raise (Exn AssertionError "Proxy invalidated!")).
Proof.
  cbn zeta. split.
  - apply (index_and_slice_skip_the_assertion sample_doc
             (spec_cetree sample_doc element_only) 0%nat
             (mk_proxy NULL (Some 0%nat) (Some [])) 0 0 0
             [mk_proxy NULL (Some 0%nat) (Some [])] eq_refl eq_refl).
  - reflexivity.
Defined.

End ProxyProperties.

(** * Properties over the specification's model of [cetree] *)

Section SpecModelProperties.
Import PyClassLookup.
Variable D : xmlNode.
Variable is_elem : xmlElementType -> bool.

Let C := spec_cetree D is_elem.

Lemma elem_at_child (a : addr) (n : xmlNode) (j : nat) :
  deref D a = Some n ->
  elem_at D is_elem (j :: a)
  = match children n !! j with
    | Some k => is_elem (type k)
    | None => false
    end.
Proof.
  intros E. unfold elem_at, node_type. rewrite deref_cons, E.
  now destruct (children n !! j).
Qed.

(** Positions of the members of [l] that satisfy [f], counted against the
    members before them. *)
Lemma filter_positions_length {A} (f : A -> bool) (l : list A) (j : nat) :
  (j <= length l)%nat ->
  length (List.filter
            (fun i => match l !! i with Some k => f k | None => false end)
            (seq 0 j))
  = length (List.filter f (take j l)).
Proof.
  induction j as [|j IH]; intros Hj; [reflexivity|].
  destruct (lookup_lt_is_Some_2 l j ltac:(lia)) as [k Ek].
  rewrite seq_S, List.filter_app, (take_S_r l j k Ek), List.filter_app.
  rewrite !length_app, IH by lia. cbn. rewrite Ek.
  now destruct (f k).
Qed.

Lemma filter_positions_lookup {A} (f : A -> bool) (l : list A) (j : nat)
    (k : A) :
  l !! j = Some k -> f k = true ->
  List.filter
    (fun i => match l !! i with Some k => f k | None => false end)
    (seq 0 (length l))
  !! length (List.filter f (take j l)) = Some j.
Proof.
  intros Ek Hf.
  assert (j < length l)%nat as Hj by (eapply lookup_lt_Some; eauto).
  replace (length l) with (j + S (length l - S j))%nat by lia.
  rewrite seq_app, List.filter_app. cbn [seq List.filter plus].
  rewrite Ek, Hf.
  rewrite <- (filter_positions_length f l j) by lia.
  now apply list_lookup_middle.
Qed.

Lemma element_children_positions (a : addr) (n : xmlNode) :
  deref D a = Some n ->
  element_children D is_elem (Some a)
  = (fun j => j :: a)
      <$> List.filter
            (fun i => match children n !! i with
                      | Some k => is_elem (type k)
                      | None => false
                      end)
            (seq 0 (length (children n))).
Proof.
  intros E. unfold element_children.
  rewrite (sibling_chain_children D a n E).
  generalize (seq 0 (length (children n))). intros l.
  induction l as [|j l IH]; [reflexivity|].
  cbn [fmap list_fmap List.filter]. rewrite (elem_at_child a n j E).
  destruct (children n !! j) as [k|]; [destruct (is_elem (type k))|];
    cbn [fmap list_fmap]; now rewrite <- IH.
Qed.

(** [findChild] on a node of the document, for an index from 0 on. *)
Lemma findChild_nth (a : addr) (n : xmlNode) (index : Z) (j : nat)
    (k : xmlNode) :
  deref D a = Some n -> 0 <= index ->
  children n !! j = Some k -> is_elem (type k) = true ->
  length (element_nodes is_elem (take j (children n))) = Z.to_nat index ->
  spec_findChild D is_elem (Some a) index = Some (j :: a).
Proof.
  intros E Hi Ek Hk Hn. unfold spec_findChild.
  destruct (Z.leb_spec 0 index); [|lia].
  rewrite (element_children_positions a n E), list_lookup_fmap, <- Hn.
  unfold element_nodes.
  now rewrite (filter_positions_lookup (fun k => is_elem (type k))
                 (children n) j k Ek Hk).
Qed.

Lemma findChild_out_of_range (a : addr) (n : xmlNode) (index : Z) :
  deref D a = Some n -> 0 <= index ->
  (length (element_nodes is_elem (children n)) <= Z.to_nat index)%nat ->
  spec_findChild D is_elem (Some a) index = NULL.
Proof.
  intros E Hi Hn. unfold spec_findChild.
  destruct (Z.leb_spec 0 index); [|lia].
  apply lookup_ge_None.
  rewrite (element_children_positions a n E), length_fmap.
  rewrite (filter_positions_length (fun k => is_elem (type k)) (children n)
             (length (children n))) by lia.
  now rewrite firstn_all.
Qed.

(** C6: indexed child access on a valid proxy gives a proxy for the Nth
    element child of its node, the children that are no elements not
    counted, and raises [IndexError] when the node has no more than N
    element children.  [j] is the position of the child among all
    children; [s] is the root proxy of the graph. *)
Theorem getitem_nth_element_child (h : heap) (self s : nat)
    (p ps : _ElementProxy) (l : list nat) (a : addr) (n : xmlNode)
    (index : Z) :
  h !! self = Some p -> _c_node p = Some a -> deref D a = Some n ->
  _source_proxy p = Some s -> h !! s = Some ps ->
  _dependent_proxies ps = Some l ->
  0 <= index ->
  (forall j k,
     children n !! j = Some k -> is_elem (type k) = true ->
     length (element_nodes is_elem (take j (children n))) = Z.to_nat index ->
     snd (__getitem__ C self index h) = Ok (PyProxy (length h))
     /\ _c_node <$> fst (__getitem__ C self index h) !! length h
        = Some (Some (j :: a))
     /\ deref D (j :: a) = Some k)
  /\ ((length (element_nodes is_elem (children n)) <= Z.to_nat index)%nat ->
      __getitem__ C self index h
      = (h, Raise (Exn IndexError "list index out of range"))).
Proof.
  intros Ep Ec En Es Eps El Hi. split.
  - intros j k Ek Hk Hcount.
    assert (__getitem__ C self index h
            = (let '(h', r) := _newProxy (Some s) (Some (j :: a)) h in
               (h', match r with
                    | Ok el => Ok (PyProxy el)
                    | Raise e => Raise e
                    end))) as Eitem.
    { unfold __getitem__, bind at 1. rewrite (load_ok _ _ _ Ep), Ec.
      change (findChild C) with (spec_findChild D is_elem).
      rewrite (findChild_nth a n index j k En Hi Ek Hk Hcount).
      unfold bind at 1. rewrite (load_ok _ _ _ Ep), Es. unfold bind, ret.
      destruct (_newProxy (Some s) (Some (j :: a)) h) as [h' [el|e]];
        reflexivity. }
    rewrite Eitem.
    destruct (newProxy_effect (Some s) (Some (j :: a)) h)
      as (_ & (x & Ex & Exc & _) & _ & Happ).
    destruct (Happ s ps l eq_refl Eps El) as (Hok & _).
    destruct (_newProxy (Some s) (Some (j :: a)) h) as [h' r].
    cbn [fst snd] in *. subst r.
    split; [reflexivity|]. split; [now rewrite Ex, <- Exc|].
    now rewrite deref_cons, En.
  - intros Hcount. unfold __getitem__, bind. rewrite (load_ok _ _ _ Ep), Ec.
    change (findChild C) with (spec_findChild D is_elem).
    now rewrite (findChild_out_of_range a n index En Hi Hcount).
Qed.

(** ** Attributes *)

Lemma split_brace_append (h t : string) :
  no_closing_brace h = true ->
  split_brace (h +:+ String "}"%char t) = Some (h, t).
Proof.
  induction h as [|c h IH]; cbn [no_closing_brace String.append split_brace].
  - reflexivity.
  - intros [Hc Hh]%andb_prop. apply negb_true_iff in Hc.
    change (split_brace (String c (h +:+ String "}"%char t))
            = Some (String c h, t)).
    cbn [split_brace]. now rewrite Hc, (IH Hh).
Qed.

Lemma getNsTag_attr_key (x : xmlAttr) :
  wf_attr x = true ->
  spec_getNsTag (PyStr (attr_key x)) = Ok (attr_href x, attr_name x).
Proof.
  unfold wf_attr, attr_key, qualified.
  destruct (attr_href x) as [hr|]; intros Hwf.
  - cbn [spec_getNsTag].
    now rewrite (split_brace_append hr (attr_name x) Hwf).
  - destruct (attr_name x) as [|c rest]; [reflexivity|].
    cbn [spec_getNsTag starts_with_brace] in *.
    apply negb_true_iff in Hwf. now rewrite Hwf.
Qed.

Lemma opt_string_eqb_eq (a b : option string) :
  opt_string_eqb a b = true <-> a = b.
Proof.
  destruct a as [x|], b as [y|]; cbn; try (split; congruence).
  rewrite String.eqb_eq. split; congruence.
Qed.

Lemma same_attr_id (x y : xmlAttr) :
  opt_string_eqb (attr_href y) (attr_href x)
  && String.eqb (attr_name y) (attr_name x) = true
  <-> attr_id y = attr_id x.
Proof.
  unfold attr_id. rewrite andb_true_iff, opt_string_eqb_eq, String.eqb_eq.
  split; [intros [-> ->]; reflexivity|intros [= -> ->]; auto].
Qed.

(** With no two attributes of the same expanded name, the lookup by
    namespace and name finds the attribute itself. *)
Lemma find_attr_unique (l : list xmlAttr) (i : nat) (x : xmlAttr) :
  NoDup (attr_id <$> l) -> l !! i = Some x ->
  List.find
    (fun y => opt_string_eqb (attr_href y) (attr_href x)
              && String.eqb (attr_name y) (attr_name x)) l
  = Some x.
Proof.
  revert i. induction l as [|y l IH]; intros i Hnd Ei; [discriminate|].
  rewrite fmap_cons in Hnd. apply NoDup_cons in Hnd as [Hy Hnd].
  destruct i as [|i]; cbn in Ei |- *.
  - injection Ei as ->.
    now rewrite (proj2 (same_attr_id x x) eq_refl).
  - destruct (opt_string_eqb (attr_href y) (attr_href x)
              && String.eqb (attr_name y) (attr_name x)) eqn:Eb.
    + exfalso. apply Hy. apply same_attr_id in Eb. rewrite Eb.
      apply list_elem_of_fmap. exists x. split; [reflexivity|].
      eapply list_elem_of_lookup_2; eauto.
    + exact (IH i Hnd Ei).
Qed.

Lemma zip_with_fmap_same {A B1 B2 B3} (g : B1 -> B2 -> B3) (f1 : A -> B1)
    (f2 : A -> B2) (l : list A) :
  zip_with g (f1 <$> l) (f2 <$> l) = (fun x => g (f1 x) (f2 x)) <$> l.
Proof. induction l as [|x l IH]; cbn; [reflexivity|now rewrite IH]. Qed.

(** C7: on a valid proxy whose node has well-formed attributes with
    distinct expanded names, [keys()], [values()] and [items()] list the
    same attributes in the same order: [items()] pairs the members of
    [keys()] with those of [values()], and [get(key)] gives for each key
    of [keys()] the value paired with it. *)
Theorem attribute_accessors_consistent (h : heap) (self : nat)
    (p : _ElementProxy) (a : addr) (n : xmlNode) :
  h !! self = Some p -> _c_node p = Some a -> deref D a = Some n ->
  forallb wf_attr (properties n) = true ->
  NoDup (attr_id <$> properties n) ->
  exists ks vs,
    keys C self h = (h, Ok (PyList ks))
    /\ values C self h = (h, Ok (PyList vs))
    /\ items C self h
       = (h, Ok (PyList (zip_with (fun k v => PyTuple [k; v]) ks vs)))
    /\ length ks = length vs
    /\ forall i k v default,
         ks !! i = Some k -> vs !! i = Some v ->
         get C self k default h = (h, Ok v).
Proof.
  intros Ep Ec En Hwf Hnd.
  pose proof (assertNode_valid h self p a Ep Ec) as Ha.
  assert (node_properties D (Some a) = properties n) as Eprops
    by (unfold node_properties, node_at; now rewrite En).
  exists ((fun x => PyStr (attr_key x)) <$> properties n),
         ((fun x => PyStr (attr_value x)) <$> properties n).
  split; [|split; [|split; [|split]]].
  - unfold keys, bind at 1. rewrite Ha. unfold bind.
    rewrite (load_ok _ _ _ Ep), Ec. cbn. unfold spec_collectAttributes.
    now rewrite Eprops.
  - unfold values, bind at 1. rewrite Ha. unfold bind.
    rewrite (load_ok _ _ _ Ep), Ec. cbn. unfold spec_collectAttributes.
    now rewrite Eprops.
  - unfold items, bind at 1. rewrite Ha. unfold bind.
    rewrite (load_ok _ _ _ Ep), Ec. cbn. unfold spec_collectAttributes.
    rewrite Eprops, zip_with_fmap_same. reflexivity.
  - now rewrite !length_fmap.
  - intros i k v default Ek Ev.
    rewrite list_lookup_fmap in Ek, Ev.
    destruct (properties n !! i) as [x|] eqn:Ex; [|discriminate].
    cbn in Ek, Ev. injection Ek as <-. injection Ev as <-.
    assert (wf_attr x = true) as Hx.
    { rewrite forallb_forall in Hwf. apply Hwf.
      apply list_elem_of_In. eapply list_elem_of_lookup_2; eauto. }
    unfold get, bind at 1. rewrite Ha. unfold bind at 1.
    rewrite (load_ok _ _ _ Ep), Ec.
    unfold _getAttributeValue, bind, lift.
    change (getNsTag C) with spec_getNsTag.
    rewrite (getNsTag_attr_key x Hx).
    change (attributeValueFromNsName C)
      with (spec_attributeValueFromNsName D).
    unfold spec_attributeValueFromNsName. rewrite Eprops.
    now rewrite (find_attr_unique (properties n) i x Hnd Ex).
Qed.

End SpecModelProperties.

Section SpecModelWitnesses.
Import PyClassLookup.

Lemma getitem_nth_element_child_witness :
  let C := spec_cetree sample_doc element_only in
  let h := [mk_proxy (Some sample_root_addr) (Some 0%nat) (Some [0%nat])] in
  _c_node <$> fst (__getitem__ C 0 0 h) !! 1%nat = Some (Some [0; 0]%nat)
  /\ _c_node <$> fst (__getitem__ C 0 1 h) !! 1%nat = Some (Some [2; 0]%nat)
  /\ __getitem__ C 0 2 h
     = (h, Raise (Exn IndexError "list index out of range")).
Proof.
  cbn zeta.
  pose (h := [mk_proxy (Some sample_root_addr) (Some 0%nat) (Some [0%nat])]).
  pose proof (fun index Hi =>
    getitem_nth_element_child sample_doc element_only h 0 0
      (mk_proxy (Some sample_root_addr) (Some 0%nat) (Some [0%nat]))
      (mk_proxy (Some sample_root_addr) (Some 0%nat) (Some [0%nat]))
      [0%nat] sample_root_addr sample_root index
      eq_refl eq_refl eq_refl eq_refl eq_refl eq_refl Hi) as T.
  split; [|split].
  - destruct (T 0 ltac:(lia)) as [Hnth _].
    exact (proj1 (proj2 (Hnth 0%nat (leaf XML_ELEMENT_NODE "e0")
                           eq_refl eq_refl eq_refl))).
  - destruct (T 1 ltac:(lia)) as [Hnth _].
    exact (proj1 (proj2 (Hnth 2%nat (leaf XML_ELEMENT_NODE "e2")
                           eq_refl eq_refl eq_refl))).
  - destruct (T 2 ltac:(lia)) as [_ Hout]. apply Hout. cbn. lia.
Defined.

Lemma attribute_accessors_consistent_witness :
  let C := spec_cetree sample_doc element_only in
  let h := [mk_proxy (Some sample_root_addr) (Some 0%nat) (Some [0%nat])] in
  exists ks vs,
    keys C 0 h = (h, Ok (PyList ks))
    /\ values C 0 h = (h, Ok (PyList vs))
    /\ items C 0 h
       = (h, Ok (PyList (zip_with (fun k v => PyTuple [k; v]) ks vs)))
    /\ length ks = length vs
    /\ forall i k v default,
         ks !! i = Some k -> vs !! i = Some v ->
         get C 0 k default h = (h, Ok v).
Proof.
  cbn zeta.
  apply (attribute_accessors_consistent sample_doc element_only
           [mk_proxy (Some sample_root_addr) (Some 0%nat) (Some [0%nat])]
           0%nat (mk_proxy (Some sample_root_addr) (Some 0%nat) (Some [0%nat]))
           sample_root_addr sample_root eq_refl eq_refl eq_refl eq_refl).
  cbn. repeat constructor; rewrite ?elem_of_cons, ?elem_of_nil;
    intros H; repeat destruct H as [H|H]; try discriminate H; exact H.
Defined.

End SpecModelWitnesses.

(** * Further properties of [Schematron] *)

Section SchematronMore.
Import Schematron.

Lemma land_lor_absorb (a b : Z) : Z.land (Z.lor a b) a = a.
Proof.
  apply Z.bits_inj'. intros n Hn.
  rewrite Z.land_spec, Z.lor_spec.
  destruct (Z.testbit a n), (Z.testbit b n); reflexivity.
Qed.

Lemma land_lor_absorb_r (a b : Z) : Z.land (Z.lor a b) b = b.
Proof. rewrite Z.lor_comm. apply land_lor_absorb. Qed.

(** X1: whatever [__init__] is given and however it ends, every parser
    context it created has been freed when it returns or raises. *)
Theorem init_frees_parser_ctxt (N : natives) (etree file : option PyObject) :
  live_parser_ctxts (fst (__init__ N etree file [])) = [].
Proof.
  unfold __init__, parser_ctxt_from_tree, parser_ctxt_from_file,
    bind, lift, emit, raise, ret.
  destruct (ENABLE_SCHEMATRON N); cbn [negb]; [|reflexivity].
  destruct etree as [e|].
  - destruct (_documentOrRaise N e) as [doc|x]; [|reflexivity].
    destruct (_rootNodeOrRaise N e) as [root|x]; [|reflexivity].
    cbn [app].
    destruct (xmlSchematronNewDocParserCtxt N _) as [pc|]; [|reflexivity].
    cbn [app].
    destruct (xmlSchematronParse N pc) as [sc|]; cbn [app fst];
      unfold live_parser_ctxts; cbn [foldl];
      now rewrite filter_ne_singleton.
  - destruct file as [f|]; [|reflexivity].
    destruct (_encodeFilename N _) as [name|x]; [|reflexivity].
    cbn [app].
    destruct (xmlSchematronNewParserCtxt N name) as [pc|]; [|reflexivity].
    cbn [app].
    destruct (xmlSchematronParse N pc) as [sc|]; cbn [app fst];
      unfold live_parser_ctxts; cbn [foldl];
      now rewrite filter_ne_singleton.
Qed.


(** X3: every validation context [__call__] asks for is asked for with
    all bits of [XML_SCHEMATRON_OUT_QUIET] set; with a libxml2 up to
    2.6.29 all bits of [XML_SCHEMATRON_OUT_XML] are set as well, and with
    a later one the options are [XML_SCHEMATRON_OUT_QUIET] alone. *)
Theorem call_options_quiet (N : natives) (c_schema : nat) (etree : PyObject)
    (options : Z) :
  options ∈ valid_ctxt_options (fst (__call__ N c_schema etree [])) ->
  Z.land options (XML_SCHEMATRON_OUT_QUIET N) = XML_SCHEMATRON_OUT_QUIET N
  /\ (LIBXML_VERSION N <= 20629 ->
      Z.land options (XML_SCHEMATRON_OUT_XML N) = XML_SCHEMATRON_OUT_XML N)
  /\ (20629 < LIBXML_VERSION N -> options = XML_SCHEMATRON_OUT_QUIET N).
Proof.
  intros Hin.
  assert (options = call_options N) as ->.
  { revert Hin.
    destruct (call_paths N c_schema etree) as [e| |v d r]; cbn;
      rewrite ?elem_of_nil, ?list_elem_of_singleton; tauto. }
  unfold call_options.
  destruct (Z.leb_spec (LIBXML_VERSION N) 20629).
  - split; [apply land_lor_absorb|]. split; [|lia].
    intros _. apply land_lor_absorb_r.
  - split; [apply Z.land_diag|]. split; [lia|reflexivity].
Qed.

Lemma call_options_quiet_witness :
  Z.land 5 (XML_SCHEMATRON_OUT_QUIET (sample_natives true 0)) = 1.
Proof.
  apply (call_options_quiet (sample_natives true 0) 20%nat 0%nat 5).
  cbn. set_solver.
Defined.

(** X4: the only call [__call__] makes while the interpreter lock is
    released is the evaluation [xmlSchematronValidateDoc], at most once;
    the error log, the validation context and the artificial document are
    handled with the lock held. *)
Theorem call_releases_lock_for_evaluation_only (N : natives)
    (c_schema : nat) (etree : PyObject) :
  match while_released false (fst (__call__ N c_schema etree [])) with
  | [] => evaluation_code (fst (__call__ N c_schema etree [])) = None
  | [EvValidateDoc _ _ r] =>
      evaluation_code (fst (__call__ N c_schema etree [])) = Some r
  | _ => False
  end.
Proof.
  destruct (call_paths N c_schema etree) as [e| |v d r]; reflexivity.
Qed.

End SchematronMore.

(** * Further properties of the proxies *)

Section ProxyMore.
Import PyClassLookup.

(** ** Accesses that only read *)

Lemma heap_pure_ret {A} (a : A) : heap_pure (ret a).
Proof. intros h. reflexivity. Qed.

Lemma heap_pure_raise {A} (e : exn) : heap_pure (@raise heap A e).
Proof. intros h. reflexivity. Qed.

Lemma heap_pure_lift {A} (r : result A) : heap_pure (lift r).
Proof. intros h. reflexivity. Qed.

Lemma heap_pure_bind {A B} (c : M heap A) (k : A -> M heap B) :
  heap_pure c -> (forall a, heap_pure (k a)) -> heap_pure (bind c k).
Proof.
  intros Hc Hk h. unfold bind. specialize (Hc h).
  destruct (c h) as [h' [a|e]]; cbn [fst] in *; subst h'; [apply Hk|reflexivity].
Qed.

Lemma heap_pure_load (self : nat) : heap_pure (load self).
Proof. intros h. unfold load. now destruct (h !! self). Qed.

Lemma heap_pure_assert (self : nat) : heap_pure (_assertNode self).
Proof.
  apply heap_pure_bind; [apply heap_pure_load|].
  intros p. destruct (_c_node p); [apply heap_pure_ret|apply heap_pure_raise].
Qed.

Ltac heap_pure_steps :=
  repeat match goal with
         | |- heap_pure (ret _) => apply heap_pure_ret
         | |- heap_pure (raise _) => apply heap_pure_raise
         | |- heap_pure (lift _) => apply heap_pure_lift
         | |- heap_pure (load _) => apply heap_pure_load
         | |- heap_pure (_assertNode _) => apply heap_pure_assert
         | |- heap_pure (bind _ _) => apply heap_pure_bind; [|intros ?]
         | |- heap_pure (match ?x with _ => _ end) => destruct x
         | |- heap_pure (if ?x then _ else _) => destruct x
         | |- heap_pure (let '(_, _) := ?x in _) => destruct x
         end.

(** X5: reading a property of a proxy, its length, its truth value or
    its attributes changes no proxy and makes none, whether the proxy is
    valid or not and whatever the access gives. *)
Theorem read_only_access_keeps_heap D C (a : access) (self : nat) (h : heap) :
  read_only a = true -> fst (perform D C a self h) = h.
Proof.
  intros Hro. revert h. change (heap_pure (perform D C a self)).
  destruct a; try discriminate Hro; cbn [perform];
    unfold tag, text, tail, attrib, prefix, sourceline, __len__,
      __nonzero__, get, _getAttributeValue, keys, values, items;
    heap_pure_steps.
Qed.

Lemma read_only_access_keeps_heap_witness :
  let C := spec_cetree sample_doc element_only in
  let h := [mk_proxy (Some sample_root_addr) (Some 0%nat) (Some [0%nat])] in
  fst (perform sample_doc C (a_get (PyStr "a") PyNone) 0 h) = h.
Proof.
  cbn zeta.
  apply (read_only_access_keeps_heap sample_doc
           (spec_cetree sample_doc element_only)
           (a_get (PyStr "a") PyNone)). reflexivity.
Defined.

(** ** Proxies are only ever added *)

Lemma keeps_proxies_refl (h : heap) : keeps_proxies h h.
Proof. split; [lia|]. intros i q E. eauto. Qed.

Lemma keeps_proxies_trans (h1 h2 h3 : heap) :
  keeps_proxies h1 h2 -> keeps_proxies h2 h3 -> keeps_proxies h1 h3.
Proof.
  intros [L1 K1] [L2 K2]. split; [lia|].
  intros i q E. destruct (K1 i q E) as (q2 & E2 & Hc2 & Hs2).
  destruct (K2 i q2 E2) as (q3 & E3 & Hc3 & Hs3).
  exists q3. repeat split; congruence.
Qed.

Lemma newProxy_keeps_proxies (sp : option nat) (c : ptr) (h : heap) :
  keeps_proxies h (fst (_newProxy sp c h)).
Proof.
  destruct (newProxy_effect sp c h) as (Hlen & _ & Hold & _).
  split; [lia|]. intros i q E.
  destruct (Hold i q E) as (q' & E' & Hc & Hs & _). eauto.
Qed.

Lemma spawns_keep_proxies (h h' : heap) :
  rtc spawn h h' -> keeps_proxies h h'.
Proof.
  induction 1 as [h|h1 h2 h3 Hs _ IH]; [apply keeps_proxies_refl|].
  eapply keeps_proxies_trans; [|exact IH].
  destruct Hs. apply newProxy_keeps_proxies.
Qed.

(** X6: whatever user code does with the proxies it can reach, every
    proxy that exists before is there afterwards with the same node and
    the same source: no access invalidates a proxy, revives one or moves
    it to another graph. *)
Theorem run_keeps_proxies D C (c : code) (h : heap) :
  keeps_proxies h (fst (run D C c h)).
Proof. apply spawns_keep_proxies, run_spawning. Qed.

(** ** What the teardown touches *)

Lemma spawn_registry_fresh (root : nat) (h h' : heap) :
  spawn h h' -> graph_inv root h -> registry_fresh root h ->
  registry_fresh root h'.
Proof.
  intros [h0 self p c Ep] [(pr & l & Er & Es & El) _ _] Hfresh.
  destruct (newProxy_effect (_source_proxy p) c h0) as (_ & _ & Hold & _).
  assert (root < length h0)%nat as Hroot by (eapply lookup_lt_Some; eauto).
  destruct (Hold root pr Er) as (pr' & Er' & _ & _ & Ed').
  unfold registry_fresh in *.
  rewrite (registry_lookup h0 root pr l Er El) in Hfresh.
  intros i. unfold registry. rewrite Er'.
  destruct Ed' as [Ed'|(_ & _ & l0 & El0 & El0')].
  - rewrite Ed', El. cbn. apply Hfresh.
  - rewrite El0'. cbn. assert (l0 = l) as -> by congruence.
    intros [Hin|Hin]%elem_of_app; [now apply Hfresh|].
    apply list_elem_of_singleton in Hin. lia.
Qed.

Lemma spawns_registry_fresh (root : nat) (h h' : heap) :
  rtc spawn h h' -> graph_inv root h -> registry_fresh root h ->
  graph_inv root h' /\ registry_fresh root h'.
Proof.
  induction 1 as [h|h1 h2 h3 Hs _ IH]; [auto|].
  intros Hinv Hfresh. apply IH.
  - eapply spawn_graph_inv; eauto.
  - eapply spawn_registry_fresh; eauto.
Qed.

(** [_freeProxies] on the root of a graph, in full: the heap it leaves
    is the heap with every proxy of the registry invalidated and the
    registry emptied. *)
Lemma freeProxies_shape (root : nat) (h : heap) :
  graph_inv root h ->
  exists h1 pr1,
    _freeProxies (Some root) h
    = (<[root := set_dependent_proxies (Some []) pr1]> h1, Ok tt)
    /\ h1 !! root = Some pr1
    /\ length h1 = length h
    /\ forall i q, h !! i = Some q -> i ∉ registry h root ->
                   h1 !! i = Some q.
Proof.
  intros [(pr & l & Er & Es & El) Hreg Hlive].
  rewrite (registry_lookup h root pr l Er El) in *.
  destruct (for_each_invalidate l h Hlive) as (h1 & Erun & Hlen & Hh1).
  assert (root < length h1)%nat as Hroot
    by (rewrite Hlen; eapply lookup_lt_Some; eauto).
  destruct (lookup_lt_is_Some_2 h1 root Hroot) as [pr1 Er1].
  exists h1, pr1. split.
  { unfold _freeProxies, bind. rewrite (load_ok _ _ _ Er), El, Erun.
    now rewrite (store_ok _ _ _ _ Er1). }
  split; [exact Er1|]. split; [exact Hlen|].
  intros i q Ei Hnot.
  assert (i < length h1)%nat as Hi
    by (rewrite Hlen; eapply lookup_lt_Some; eauto).
  destruct (lookup_lt_is_Some_2 h1 i Hi) as [q1 E1].
  destruct (Hh1 i q1 E1) as (q0 & E0 & _ & _ & _ & Hout).
  rewrite E1, (Hout Hnot). congruence.
Qed.

(** X7: a pass leaves the proxies of every other graph alone.  However
    [_lookup_class] ends, each proxy that existed before the call has
    the node and the source it had: the teardown of this pass
    invalidates proxies of this pass only. *)
Theorem lookup_class_keeps_older_proxies D C state (doc : nat)
    (c_node : ptr) (h0 : heap) :
  refs_live h0 ->
  keeps_proxies h0 (fst (_lookup_class D C state doc c_node h0)).
Proof.
  intros Hlive.
  set (root := length h0).
  set (h1 := fst (_newProxy None c_node h0)).
  set (h2 := fst (run D C (lookup state doc root) h1)).
  assert (keeps_proxies h0 h2) as K02.
  { eapply keeps_proxies_trans; [apply newProxy_keeps_proxies|].
    apply spawns_keep_proxies, run_spawning. }
  assert (graph_inv root h2 /\ registry_fresh root h2) as [Hinv Hfresh].
  { apply (spawns_registry_fresh root h1 h2); [apply run_spawning| |].
    - now apply new_root_graph_inv.
    - intros i. unfold h1, registry, root. rewrite newProxy_root. cbn [fst].
      rewrite lookup_snoc. cbn. intros ->%list_elem_of_singleton. lia. }
  unfold _lookup_class, bind at 1. rewrite newProxy_root.
  unfold bind at 1. fold root.
  assert (fst (run D C (lookup state doc root)
                 (h0 ++ [mk_proxy c_node (Some root) (Some [root])])) = h2)
    as E2 by (unfold h2, h1; now rewrite newProxy_root).
  destruct (run D C (lookup state doc root)
              (h0 ++ [mk_proxy c_node (Some root) (Some [root])]))
    as [h2' [cls|e]]; cbn [fst] in E2; subst h2'; [|exact K02].
  destruct (freeProxies_shape root h2 Hinv) as (h3 & pr3 & Efree & Er3 & Hlen & Hkeep).
  unfold bind. rewrite Efree.
  assert (keeps_proxies h0 (<[root := set_dependent_proxies (Some []) pr3]> h3))
    as K.
  { destruct K02 as [L02 K02]. split; [rewrite length_insert; lia|].
    intros i q Ei. destruct (K02 i q Ei) as (q2 & E2 & Hc & Hs).
    assert (i < root)%nat as Hi by (eapply lookup_lt_Some; eauto).
    exists q2. rewrite list_lookup_insert_ne by lia.
    split; [|auto]. apply (Hkeep i q2 E2).
    intros Hin. specialize (Hfresh i Hin). lia. }
  destruct cls; exact K.
Qed.

Lemma lookup_class_keeps_older_proxies_witness :
  let C := spec_cetree sample_doc element_only in
  let state :=
    {| fallback_part := 7%nat;
       lookup := fun _ root =>
         Access a_getchildren root (fun _ => Return PyNone) |} in
  let h0 := [mk_proxy (Some sample_root_addr) (Some 0%nat) (Some [0%nat])] in
  refs_live h0
  /\ keeps_proxies h0
       (fst (_lookup_class sample_doc C state 0%nat (Some sample_root_addr) h0)).
Proof.
  cbn zeta.
  assert (refs_live [mk_proxy (Some sample_root_addr) (Some 0%nat)
                       (Some [0%nat])]) as Hlive.
  { intros [|i] q s Ei Es; [|discriminate].
    injection Ei as <-. injection Es as <-. cbn. lia. }
  split; [exact Hlive|].
  apply (lookup_class_keeps_older_proxies sample_doc
           (spec_cetree sample_doc element_only)
           {| fallback_part := 7%nat;
              lookup := fun _ root =>
                Access a_getchildren root (fun _ => Return PyNone) |}
           0%nat (Some sample_root_addr) _ Hlive).
Defined.

(** X8: tearing a graph down twice is tearing it down once: after the
    teardown at the end of a pass, [_freeProxies] on the same root
    returns and changes nothing. *)
Theorem freeProxies_twice D C (c_node : ptr) (user : nat -> code)
    (h0 : heap) :
  refs_live h0 ->
  _freeProxies (Some (length h0)) (heap_after_pass D C user c_node h0)
  = (heap_after_pass D C user c_node h0, Ok tt).
Proof.
  intros Hlive. unfold heap_after_pass.
  pose proof (pass_graph_inv D C c_node (user (length h0)) h0 Hlive) as Hinv.
  destruct (freeProxies_shape _ _ Hinv) as (h3 & pr3 & Efree & Er3 & Hlen & _).
  rewrite Efree. cbn [fst].
  assert (length h0 < length h3)%nat as Hroot by (eapply lookup_lt_Some; eauto).
  unfold _freeProxies, bind, load.
  rewrite list_lookup_insert_eq by exact Hroot. cbn.
  unfold store. rewrite list_lookup_insert_eq by exact Hroot.
  now rewrite list_insert_insert_eq.
Qed.

Lemma freeProxies_twice_witness :
  let C := spec_cetree sample_doc element_only in
  let user := fun root => Access a_getchildren root (fun _ => Return PyNone) in
  _freeProxies (Some 0%nat)
    (heap_after_pass sample_doc C user (Some sample_root_addr) [])
  = (heap_after_pass sample_doc C user (Some sample_root_addr) [], Ok tt).
Proof.
  cbn zeta.
  apply (freeProxies_twice sample_doc (spec_cetree sample_doc element_only)
           (Some sample_root_addr)
           (fun root => Access a_getchildren root (fun _ => Return PyNone)) []).
  intros i q s Ei. discriminate.
Defined.

(** ** Length and children *)

Lemma len_loop_count D C (chain : list addr) (c : Z) :
  len_loop D C chain c
  = c + Z.of_nat (length (List.filter (isElement_at D C) chain)).
Proof.
  revert c. induction chain as [|a chain IH]; intros c; cbn [len_loop List.filter];
    [cbn; lia|].
  destruct (isElement_at D C a); rewrite IH; cbn [length]; lia.
Qed.

(** The element children of a node as the loops see them. *)
Lemma filter_chain_children D C (a : addr) (n : xmlNode) :
  deref D a = Some n ->
  List.filter (isElement_at D C) (sibling_chain D (node_children D (Some a)))
  = element_children D (_isElement C) (Some a).
Proof. reflexivity. Qed.

Lemma element_children_length D is_elem (a : addr) (n : xmlNode) :
  deref D a = Some n ->
  length (element_children D is_elem (Some a))
  = length (element_nodes is_elem (children n)).
Proof.
  intros E. rewrite (element_children_positions D is_elem a n E), length_fmap.
  rewrite (filter_positions_length (fun k => is_elem (type k)) (children n)
             (length (children n))) by lia.
  now rewrite firstn_all.
Qed.

Lemma filter_positions_nodes {A} (f : A -> bool) (l : list A) (j : nat) :
  (j <= length l)%nat ->
  (fun i => l !! i)
    <$> List.filter
          (fun i => match l !! i with Some k => f k | None => false end)
          (seq 0 j)
  = Some <$> List.filter f (take j l).
Proof.
  induction j as [|j IH]; intros Hj; [reflexivity|].
  destruct (lookup_lt_is_Some_2 l j ltac:(lia)) as [k Ek].
  rewrite seq_S, List.filter_app, (take_S_r l j k Ek), List.filter_app.
  rewrite !fmap_app, IH by lia. cbn. rewrite Ek.
  destruct (f k); [cbn; now rewrite Ek|reflexivity].
Qed.

(** The nodes at the addresses of the element children are the element
    children, in document order. *)
Lemma element_children_nodes D is_elem (a : addr) (n : xmlNode) :
  deref D a = Some n ->
  deref D <$> element_children D is_elem (Some a)
  = Some <$> element_nodes is_elem (children n).
Proof.
  intros E. rewrite (element_children_positions D is_elem a n E).
  rewrite <- list_fmap_compose.
  rewrite (list_fmap_ext (deref D ∘ (fun j => j :: a))
             (fun i => children n !! i)).
  - rewrite (filter_positions_nodes (fun k => is_elem (type k)) (children n)
               (length (children n))) by lia.
    now rewrite firstn_all.
  - intros i j _. unfold compose. now rewrite deref_cons, E.
Qed.

(** X9: the length of a valid proxy is the number of children of its
    node that [_isElement] accepts; taking it changes nothing. *)
Theorem len_counts_element_children D C (h : heap) (self : nat)
    (p : _ElementProxy) (a : addr) (n : xmlNode) :
  h !! self = Some p -> _c_node p = Some a -> deref D a = Some n ->
  __len__ D C self h
  = (h, Ok (PyInt (Z.of_nat
                     (length (element_nodes (_isElement C) (children n)))))).
Proof.
  intros Ep Ec En. unfold __len__, bind at 1.
  rewrite (assertNode_valid h self p a Ep Ec). unfold bind, ret.
  rewrite (load_ok _ _ _ Ep), Ec, len_loop_count.
  rewrite (filter_chain_children D C a n En).
  now rewrite (element_children_length D (_isElement C) a n En).
Qed.

Lemma len_counts_element_children_witness :
  let C := spec_cetree sample_doc element_only in
  let h := [mk_proxy (Some sample_root_addr) (Some 0%nat) (Some [0%nat])] in
  __len__ sample_doc C 0 h = (h, Ok (PyInt 2)).
Proof.
  cbn zeta.
  apply (len_counts_element_children sample_doc
           (spec_cetree sample_doc element_only)
           [mk_proxy (Some sample_root_addr) (Some 0%nat) (Some [0%nat])]
           0%nat (mk_proxy (Some sample_root_addr) (Some 0%nat) (Some [0%nat]))
           sample_root_addr sample_root eq_refl eq_refl eq_refl).
Defined.

(** The loop of [getchildren] from a heap in which [self] belongs to the
    graph of [s] and [s] has a registry. *)
Lemma getchildren_loop_spec D C (self s : nat) (chain : list addr) :
  forall (result : list nat) (h : heap),
    (exists p, h !! self = Some p /\ _source_proxy p = Some s) ->
    (exists ps l, h !! s = Some ps /\ _dependent_proxies ps = Some l) ->
    exists h',
      getchildren_loop D C self chain result h
      = (h', Ok (result
                 ++ seq (length h)
                      (length (List.filter (isElement_at D C) chain))))
      /\ keeps_proxies h h'
      /\ (exists ps l, h' !! s = Some ps /\ _dependent_proxies ps = Some l)
      /\ _c_node <$> drop (length h) h'
         = Some <$> List.filter (isElement_at D C) chain
      /\ Forall (fun q => _source_proxy q = Some s) (drop (length h) h').
Proof.
  induction chain as [|a chain IH]; intros result h Hself Hsrc;
    cbn [getchildren_loop List.filter].
  - exists h. cbn [length seq]. rewrite app_nil_r, drop_all.
    split; [reflexivity|]. split; [apply keeps_proxies_refl|].
    split; [exact Hsrc|]. split; [reflexivity|constructor].
  - destruct (isElement_at D C a); [|now apply IH].
    destruct Hself as (p & Ep & Es). destruct Hsrc as (ps & l & Eps & El).
    unfold bind at 1. rewrite (load_ok _ _ _ Ep), Es.
    destruct (newProxy_effect (Some s) (Some a) h)
      as (Hlen & (x & Ex & Exc & Exs & _) & Hold & Happ).
    destruct (Happ s ps l eq_refl Eps El) as (Hok & ps' & Eps' & El').
    destruct (Hold self p Ep) as (p' & Ep' & _ & Es' & _).
    unfold bind.
    destruct (_newProxy (Some s) (Some a) h) as [h1 r] eqn:Enew.
    cbn [fst snd] in *. subst r.
    destruct (IH (result ++ [length h]) h1) as (h' & Erun & K & Hs' & Hc & Hf).
    { exists p'. split; congruence. }
    { eauto. }
    exists h'. rewrite Erun, Hlen, <- app_assoc. cbn [length seq app].
    split; [reflexivity|].
    pose proof (newProxy_keeps_proxies (Some s) (Some a) h) as K1.
    rewrite Enew in K1. cbn [fst] in K1.
    split; [eapply keeps_proxies_trans; eauto|].
    split; [exact Hs'|].
    destruct K as [_ K]. destruct (K _ x Ex) as (x' & Ex' & Hxc & Hxs).
    rewrite (drop_S h' x' (length h) Ex'). rewrite Hlen in Hc, Hf.
    cbn [fmap list_fmap]. split.
    + rewrite Hc. f_equal. congruence.
    + constructor; [cbn in Exs; congruence|exact Hf].
Qed.

(** X10: [getchildren] on a valid proxy of a graph makes one new proxy
    for each child its node has that [_isElement] accepts, and no other:
    the list holds the new proxies in document order, there are as many
    as the length of the proxy, their nodes are those children, and the
    proxies that were there keep their node and source. *)
Theorem getchildren_one_proxy_per_child D C (h : heap) (self s : nat)
    (p ps : _ElementProxy) (l : list nat) (a : addr) (n : xmlNode) :
  h !! self = Some p -> _c_node p = Some a -> deref D a = Some n ->
  _source_proxy p = Some s -> h !! s = Some ps ->
  _dependent_proxies ps = Some l ->
  exists h' k,
    getchildren D C self h
    = (h', Ok (PyList (PyProxy <$> seq (length h) k)))
    /\ __len__ D C self h = (h, Ok (PyInt (Z.of_nat k)))
    /\ length h' = (length h + k)%nat
    /\ keeps_proxies h h'
    /\ (fun q => match _c_node q with
                 | Some c => deref D c
                 | None => None
                 end) <$> drop (length h) h'
       = Some <$> element_nodes (_isElement C) (children n).
Proof.
  intros Ep Ec En Es Eps El.
  destruct (getchildren_loop_spec D C self s
              (sibling_chain D (node_children D (Some a))) [] h)
    as (h' & Erun & K & _ & Hc & _); [eauto|eauto|].
  rewrite (filter_chain_children D C a n En) in Erun, Hc.
  rewrite (element_children_length D (_isElement C) a n En) in Erun.
  exists h', (length (element_nodes (_isElement C) (children n))).
  split.
  { unfold getchildren, getchildren_refs, bind at 1. unfold bind at 1.
    rewrite (assertNode_valid h self p a Ep Ec). unfold bind at 1.
    rewrite (load_ok _ _ _ Ep), Ec. unfold bind. now rewrite Erun. }
  split.
  { unfold __len__, bind at 1.
    rewrite (assertNode_valid h self p a Ep Ec). unfold bind, ret.
    rewrite (load_ok _ _ _ Ep), Ec, len_loop_count.
    rewrite (filter_chain_children D C a n En).
    now rewrite (element_children_length D (_isElement C) a n En). }
  assert (length (drop (length h) h')
          = length (element_nodes (_isElement C) (children n))) as Hlen.
  { rewrite <- (length_fmap _c_node), Hc, length_fmap.
    apply (element_children_length D (_isElement C) a n En). }
  split.
  { rewrite length_drop in Hlen. destruct K as [L _]. lia. }
  split; [exact K|].
  rewrite <- (element_children_nodes D (_isElement C) a n En).
  transitivity ((fun o : ptr => match o with
                                | Some c => deref D c
                                | None => None
                                end) <$> (_c_node <$> drop (length h) h')).
  - now rewrite <- list_fmap_compose.
  - rewrite Hc, <- list_fmap_compose. reflexivity.
Qed.

Lemma getchildren_one_proxy_per_child_witness :
  let C := spec_cetree sample_doc element_only in
  let h := [mk_proxy (Some sample_root_addr) (Some 0%nat) (Some [0%nat])] in
  exists h' k,
    getchildren sample_doc C 0 h
    = (h', Ok (PyList (PyProxy <$> seq (length h) k)))
    /\ __len__ sample_doc C 0 h = (h, Ok (PyInt (Z.of_nat k)))
    /\ length h' = (length h + k)%nat
    /\ keeps_proxies h h'
    /\ (fun q => match _c_node q with
                 | Some c => deref sample_doc c
                 | None => None
                 end) <$> drop (length h) h'
       = Some <$> element_nodes element_only (children sample_root).
Proof.
  cbn zeta.
  apply (getchildren_one_proxy_per_child sample_doc
           (spec_cetree sample_doc element_only)
           [mk_proxy (Some sample_root_addr) (Some 0%nat) (Some [0%nat])]
           0%nat 0%nat
           (mk_proxy (Some sample_root_addr) (Some 0%nat) (Some [0%nat]))
           (mk_proxy (Some sample_root_addr) (Some 0%nat) (Some [0%nat]))
           [0%nat] sample_root_addr sample_root
           eq_refl eq_refl eq_refl eq_refl eq_refl eq_refl).
Defined.

(** [getchildren] on a valid proxy of a graph, with what the later
    accesses need to know about the proxies it made. *)
Lemma getchildren_refs_spec D C (h : heap) (self s : nat)
    (p ps : _ElementProxy) (l : list nat) (a : addr) (n : xmlNode) :
  h !! self = Some p -> _c_node p = Some a -> deref D a = Some n ->
  _source_proxy p = Some s -> h !! s = Some ps ->
  _dependent_proxies ps = Some l ->
  exists h',
    let cs := element_children D (_isElement C) (Some a) in
    getchildren_refs D C self h = (h', Ok (seq (length h) (length cs)))
    /\ keeps_proxies h h'
    /\ (exists ps' l', h' !! s = Some ps' /\ _dependent_proxies ps' = Some l')
    /\ length h' = (length h + length cs)%nat
    /\ forall m c,
         cs !! m = Some c ->
         exists q, h' !! (length h + m)%nat = Some q
                   /\ _c_node q = Some c /\ _source_proxy q = Some s.
Proof.
  intros Ep Ec En Es Eps El.
  destruct (getchildren_loop_spec D C self s
              (sibling_chain D (node_children D (Some a))) [] h)
    as (h' & Erun & K & Hs' & Hc & Hf); [eauto|eauto|].
  rewrite (filter_chain_children D C a n En) in Erun, Hc.
  exists h'. cbn zeta.
  set (cs := element_children D (_isElement C) (Some a)) in *.
  assert (length (drop (length h) h') = length cs) as Hlen
    by (rewrite <- (length_fmap _c_node), Hc; apply length_fmap).
  split.
  { unfold getchildren_refs, bind at 1.
    rewrite (assertNode_valid h self p a Ep Ec). unfold bind.
    now rewrite (load_ok _ _ _ Ep), Ec, Erun. }
  split; [exact K|]. split; [exact Hs'|].
  split.
  { rewrite length_drop in Hlen. destruct K as [L _]. lia. }
  intros m c Em.
  assert (m < length cs)%nat as Hm by (eapply lookup_lt_Some; eauto).
  destruct (lookup_lt_is_Some_2 (drop (length h) h') m ltac:(lia)) as [q Eq].
  exists q. split; [now rewrite lookup_drop in Eq|].
  split.
  - assert ((_c_node <$> drop (length h) h') !! m = Some (Some c)) as E
      by (rewrite Hc, list_lookup_fmap, Em; reflexivity).
    rewrite list_lookup_fmap, Eq in E. now injection E.
  - rewrite Forall_lookup in Hf. exact (Hf m q Eq).
Qed.

(** X11: from child to parent.  After [getchildren] on a valid proxy
    whose node [_isElement] accepts, [getparent] on each proxy of the
    list gives a new proxy on the node of the proxy the children were
    asked of. *)
Theorem getparent_of_child D C (h : heap) (self s : nat)
    (p ps : _ElementProxy) (l : list nat) (a : addr) (n : xmlNode) :
  h !! self = Some p -> _c_node p = Some a -> deref D a = Some n ->
  _source_proxy p = Some s -> h !! s = Some ps ->
  _dependent_proxies ps = Some l ->
  isElement_at D C a = true ->
  forall el,
    (length h <= el < length (fst (getchildren D C self h)))%nat ->
    snd (getparent D C el (fst (getchildren D C self h)))
    = Ok (PyProxy (length (fst (getchildren D C self h))))
    /\ node_of (fst (getparent D C el (fst (getchildren D C self h))))
         (length (fst (getchildren D C self h)))
       = Some a.
Proof.
  intros Ep Ec En Es Eps El Helem el Hel.
  destruct (getchildren_refs_spec D C h self s p ps l a n Ep Ec En Es Eps El)
    as (h' & Erun & _ & (ps' & l' & Eps' & El') & Hlen & Hnew).
  cbn zeta in *.
  assert (fst (getchildren D C self h) = h') as E'
    by (unfold getchildren, bind; now rewrite Erun).
  rewrite E' in *. clear E'.
  set (cs := element_children D (_isElement C) (Some a)) in *.
  destruct (lookup_lt_is_Some_2 cs (el - length h) ltac:(lia)) as [c Ecs].
  destruct (Hnew _ c Ecs) as (q & Eq & Eqc & Eqs).
  replace (length h + (el - length h))%nat with el in Eq by lia.
  assert (exists j, c = j :: a) as [j ->].
  { unfold cs in Ecs.
    rewrite (element_children_positions D (_isElement C) a n En) in Ecs.
    rewrite list_lookup_fmap in Ecs.
    destruct (_ !! (el - length h)%nat) as [j|]; [|discriminate].
    exists j. now injection Ecs. }
  destruct (newProxy_effect (Some s) (Some a) h')
    as (_ & (x & Ex & Exc & _) & _ & Happ).
  destruct (Happ s ps' l' eq_refl Eps' El') as (Hok & _).
  assert (getparent D C el h'
          = (let '(h2, r) := _newProxy (Some s) (Some a) h' in
             (h2, match r with
                  | Ok x => Ok (PyProxy x)
                  | Raise e => Raise e
                  end))) as Egp.
  { unfold getparent, bind at 1.
    rewrite (assertNode_valid h' el q (j :: a) Eq Eqc). unfold bind at 1.
    rewrite (load_ok _ _ _ Eq), Eqc. cbn [node_parent]. rewrite Helem.
    unfold bind at 1. rewrite (load_ok _ _ _ Eq), Eqs. unfold bind, ret.
    destruct (_newProxy (Some s) (Some a) h') as [h2 [y|e]]; reflexivity. }
  rewrite Egp.
  destruct (_newProxy (Some s) (Some a) h') as [h2 r].
  cbn [fst snd] in *. subst r. split; [reflexivity|].
  unfold node_of. now rewrite Ex.
Qed.

Lemma getparent_of_child_witness :
  let C := spec_cetree sample_doc element_only in
  let h := [mk_proxy (Some sample_root_addr) (Some 0%nat) (Some [0%nat])] in
  node_of (fst (getparent sample_doc C 2 (fst (getchildren sample_doc C 0 h))))
    (length (fst (getchildren sample_doc C 0 h)))
  = Some sample_root_addr.
Proof.
  cbn zeta.
  apply (getparent_of_child sample_doc (spec_cetree sample_doc element_only)
           [mk_proxy (Some sample_root_addr) (Some 0%nat) (Some [0%nat])]
           0%nat 0%nat
           (mk_proxy (Some sample_root_addr) (Some 0%nat) (Some [0%nat]))
           (mk_proxy (Some sample_root_addr) (Some 0%nat) (Some [0%nat]))
           [0%nat] sample_root_addr sample_root
           eq_refl eq_refl eq_refl eq_refl eq_refl eq_refl eq_refl 2%nat).
  cbn. lia.
Defined.

(** ** Filtered iteration *)

Lemma tag_valid C (h : heap) (el : nat) (q : _ElementProxy) (a : addr) :
  h !! el = Some q -> _c_node q = Some a ->
  tag C el h = (h, Ok (namespacedName C (Some a))).
Proof.
  intros Eq Ec. unfold tag, bind at 1.
  rewrite (assertNode_valid h el q a Eq Ec). unfold bind, ret.
  now rewrite (load_ok _ _ _ Eq), Ec.
Qed.

Lemma filter_by_tag_valid C (t : pyobj) (refs : list nat) (h : heap) :
  (forall el, el ∈ refs ->
              exists q a, h !! el = Some q /\ _c_node q = Some a) ->
  filter_by_tag C t refs h
  = (h, Ok (List.filter (fun el => tag_matches C t (node_of h el)) refs)).
Proof.
  induction refs as [|el refs IH]; intros Hvalid; [reflexivity|].
  destruct (Hvalid el ltac:(left)) as (q & a & Eq & Ec).
  assert (node_of h el = Some a) as En
    by (unfold node_of; now rewrite Eq).
  cbn [filter_by_tag List.filter]. rewrite En. unfold bind at 1.
  rewrite (tag_valid C h el q a Eq Ec). unfold bind at 1.
  rewrite IH by (intros el' Hin; apply Hvalid; now right).
  unfold tag_matches.
  destruct (namespacedName C (Some a)) as [| | |x| | | | | |];
    try reflexivity.
  destruct t as [| | |y| | | | | |]; try reflexivity.
  now destruct (String.eqb x y).
Qed.

(** X14: [iterchildren] makes the proxies [getchildren] makes and
    iterates over them in document order; with a tag it keeps the ones
    whose tag equals it, and with [reversed] it gives what it kept in
    the opposite order. *)
Theorem iterchildren_filters_children D C (h : heap) (self s : nat)
    (p ps : _ElementProxy) (l : list nat) (a : addr) (n : xmlNode)
    (tag_wanted : pyobj) (reversed : bool) :
  h !! self = Some p -> _c_node p = Some a -> deref D a = Some n ->
  _source_proxy p = Some s -> h !! s = Some ps ->
  _dependent_proxies ps = Some l ->
  let h' := fst (getchildren D C self h) in
  let refs := seq (length h) (length h' - length h) in
  let kept :=
    match tag_wanted with
    | PyNone => refs
    | _ => List.filter (fun el => tag_matches C tag_wanted (node_of h' el)) refs
    end in
  getchildren D C self h = (h', Ok (PyList (PyProxy <$> refs)))
  /\ iterchildren D C self tag_wanted reversed h
     = (h', Ok (PyIter (PyList (PyProxy
                                  <$> (if reversed then rev kept else kept))))).
Proof.
  intros Ep Ec En Es Eps El.
  destruct (getchildren_refs_spec D C h self s p ps l a n Ep Ec En Es Eps El)
    as (h1 & Erun & _ & _ & Hlen & Hnew).
  cbn zeta in Erun, Hlen, Hnew.
  set (cs := element_children D (_isElement C) (Some a)) in *.
  assert (getchildren D C self h
          = (h1, Ok (PyList (PyProxy <$> seq (length h) (length cs))))) as Egc
    by (unfold getchildren, bind; now rewrite Erun).
  cbn zeta. rewrite Egc. cbn [fst].
  replace (length h1 - length h)%nat with (length cs) by lia.
  split; [reflexivity|].
  assert (forall el, el ∈ seq (length h) (length cs) ->
                     exists q c, h1 !! el = Some q /\ _c_node q = Some c)
    as Hvalid.
  { intros el [Hlo Hhi]%elem_of_seq.
    destruct (lookup_lt_is_Some_2 cs (el - length h) ltac:(lia)) as [c Ecs].
    destruct (Hnew _ c Ecs) as (q & Eq & Eqc & _).
    replace (length h + (el - length h))%nat with el in Eq by lia. eauto. }
  unfold iterchildren, bind at 1. rewrite Erun. unfold bind, ret.
  destruct tag_wanted; try reflexivity;
    now rewrite (filter_by_tag_valid C _ _ h1 Hvalid).
Qed.

Lemma iterchildren_filters_children_witness :
  let C := spec_cetree sample_doc element_only in
  let h := [mk_proxy (Some sample_root_addr) (Some 0%nat) (Some [0%nat])] in
  iterchildren sample_doc C 0 (PyStr "e2") true h
  = (fst (getchildren sample_doc C 0 h), Ok (PyIter (PyList [PyProxy 2]))).
Proof.
  cbn zeta.
  apply (iterchildren_filters_children sample_doc
           (spec_cetree sample_doc element_only)
           [mk_proxy (Some sample_root_addr) (Some 0%nat) (Some [0%nat])]
           0%nat 0%nat
           (mk_proxy (Some sample_root_addr) (Some 0%nat) (Some [0%nat]))
           (mk_proxy (Some sample_root_addr) (Some 0%nat) (Some [0%nat]))
           [0%nat] sample_root_addr sample_root (PyStr "e2") true
           eq_refl eq_refl eq_refl eq_refl eq_refl eq_refl).
Defined.

(** ** The class the hook chooses *)

(** X13: when the hook's [lookup] returns something other than [None],
    [_lookup_class] returns exactly that, after the teardown, and the
    fallback's answer plays no part. *)
Theorem hook_class_overrides_fallback D C state (doc : nat) (c_node : ptr)
    (h0 : heap) (cls : pyobj) :
  refs_live h0 ->
  snd (run D C (lookup state doc (length h0))
         (fst (_newProxy None c_node h0))) = Ok cls ->
  cls <> PyNone ->
  snd (_lookup_class D C state doc c_node h0) = Ok cls
  /\ fst (_lookup_class D C state doc c_node h0)
     = heap_after_pass D C (lookup state doc) c_node h0.
Proof.
  intros Hlive Hcls Hnone.
  destruct (run D C (lookup state doc (length h0))
              (fst (_newProxy None c_node h0))) as [h2 r] eqn:Erun.
  cbn [snd] in Hcls. subst r.
  destruct (lookup_class_return_tears_down D C state doc c_node h0 h2 cls
              Hlive Erun) as (h3 & Efree & Ecls & _).
  unfold heap_after_pass. rewrite Erun. cbn [fst]. rewrite Efree, Ecls.
  destruct cls; try contradiction; split; reflexivity.
Qed.

Lemma hook_class_overrides_fallback_witness :
  let C := spec_cetree sample_doc element_only in
  let state :=
    {| fallback_part := 7%nat;
       lookup := fun _ root =>
         Access a_len root (fun r =>
           match r with
           | Ok (PyInt 2) => Return (PyClass 1)
           | _ => Return PyNone
           end) |} in
  snd (_lookup_class sample_doc C state 0%nat (Some sample_root_addr) [])
  = Ok (PyClass 1).
Proof.
  cbn zeta.
  apply (hook_class_overrides_fallback sample_doc
           (spec_cetree sample_doc element_only)
           {| fallback_part := 7%nat;
              lookup := fun _ root =>
                Access a_len root (fun r =>
                  match r with
                  | Ok (PyInt 2) => Return (PyClass 1)
                  | _ => Return PyNone
                  end) |}
           0%nat (Some sample_root_addr) [] (PyClass 1)).
  - intros i q s Ei. discriminate.
  - reflexivity.
  - discriminate.
Defined.

End ProxyMore.

(** * Slices *)

Section SliceMore.
Import PyClassLookup.
Variable D : xmlNode.
Variable C : cetree.

(** The loop of [__getslice__] from a heap in which [self] belongs to
    the graph of [s] and [s] has a registry. *)
Lemma getslice_loop_spec (self s : nat) (stop : Z) (chain : list addr) :
  forall (c : Z) (result : list pyobj) (h : heap),
    (exists p, h !! self = Some p /\ _source_proxy p = Some s) ->
    (exists ps l, h !! s = Some ps /\ _dependent_proxies ps = Some l) ->
    exists h',
      let cs := take (Z.to_nat (stop - c))
                  (List.filter (isElement_at D C) chain) in
      getslice_loop D C self stop chain c result h
      = (h', Ok (result ++ (PyProxy <$> seq (length h) (length cs))))
      /\ keeps_proxies h h'
      /\ _c_node <$> drop (length h) h' = Some <$> cs.
Proof.
  induction chain as [|a chain IH]; intros c result h Hself Hsrc;
    cbn [getslice_loop List.filter].
  - exists h. cbn zeta. rewrite take_nil. cbn [length seq fmap list_fmap].
    rewrite app_nil_r, drop_all.
    split; [reflexivity|]. split; [apply keeps_proxies_refl|reflexivity].
  - destruct (Z.ltb_spec c stop) as [Hc|Hc].
    2:{ exists h. cbn zeta. replace (Z.to_nat (stop - c)) with 0%nat by lia.
        rewrite take_0. cbn [length seq fmap list_fmap].
        rewrite app_nil_r, drop_all.
        split; [reflexivity|]. split; [apply keeps_proxies_refl|reflexivity]. }
    destruct (isElement_at D C a); [|now apply IH].
    destruct Hself as (p & Ep & Es). destruct Hsrc as (ps & l & Eps & El).
    unfold bind at 1. rewrite (load_ok _ _ _ Ep), Es.
    destruct (newProxy_effect (Some s) (Some a) h)
      as (Hlen & (x & Ex & Exc & Exs & _) & Hold & Happ).
    destruct (Happ s ps l eq_refl Eps El) as (Hok & ps' & Eps' & El').
    destruct (Hold self p Ep) as (p' & Ep' & _ & Es' & _).
    unfold bind.
    destruct (_newProxy (Some s) (Some a) h) as [h1 r] eqn:Enew.
    cbn [fst snd] in *. subst r.
    destruct (IH (c + 1) (result ++ [PyProxy (length h)]) h1)
      as (h' & Erun & K & Hcs).
    { exists p'. split; congruence. }
    { eauto. }
    cbn zeta in Erun, Hcs.
    exists h'. cbn zeta.
    replace (Z.to_nat (stop - c)) with (S (Z.to_nat (stop - (c + 1)))) by lia.
    rewrite firstn_cons. cbn [length seq fmap list_fmap].
    rewrite Erun, Hlen, <- app_assoc. cbn [app].
    split; [reflexivity|].
    pose proof (newProxy_keeps_proxies (Some s) (Some a) h) as K1.
    rewrite Enew in K1. cbn [fst] in K1.
    split; [eapply keeps_proxies_trans; eauto|].
    destruct K as [_ K]. destruct (K _ x Ex) as (x' & Ex' & Hxc & _).
    rewrite (drop_S h' x' (length h) Ex'). rewrite Hlen in Hcs.
    cbn [fmap list_fmap]. rewrite Hcs. f_equal. congruence.
Qed.

Lemma filter_range_nodes {A} (f : A -> bool) (l : list A) (m : nat) :
  forall j,
    (j + m = length l)%nat ->
    (fun i => l !! i)
      <$> List.filter
            (fun i => match l !! i with Some k => f k | None => false end)
            (seq j m)
    = Some <$> List.filter f (drop j l).
Proof.
  induction m as [|m IH]; intros j Hj.
  - now rewrite drop_ge by lia.
  - destruct (lookup_lt_is_Some_2 l j ltac:(lia)) as [k Ek].
    rewrite (drop_S l k j Ek). cbn [seq List.filter]. rewrite Ek.
    destruct (f k); cbn [fmap list_fmap]; rewrite ?Ek, IH by lia;
      reflexivity.
Qed.

(** The element nodes among a child and the siblings after it. *)
Lemma chain_element_nodes (a : addr) (n : xmlNode) (j : nat) :
  deref D a = Some n ->
  deref D <$> List.filter (isElement_at D C) (sibling_chain D (Some (j :: a)))
  = Some <$> element_nodes (_isElement C) (drop j (children n)).
Proof.
  intros En. unfold sibling_chain, element_nodes. rewrite En.
  destruct (decide (j < length (children n))%nat) as [Hj|Hj].
  - change ((j :: a) :: ((fun i => i :: a)
                           <$> seq (S j) (length (children n) - S j)))
      with ((fun i => i :: a) <$> seq j (S (length (children n) - S j))).
    replace (S (length (children n) - S j))
      with (length (children n) - j)%nat by lia.
    rewrite <- (filter_range_nodes (fun k => _isElement C (type k))
                  (children n) (length (children n) - j) j) by lia.
    generalize (seq j (length (children n) - j)). intros js.
    induction js as [|i js IH]; [reflexivity|].
    cbn [fmap list_fmap List.filter].
    change (isElement_at D C (i :: a))
      with (elem_at D (_isElement C) (i :: a)).
    rewrite (elem_at_child D (_isElement C) a n i En).
    destruct (children n !! i) as [k|] eqn:Ek;
      [destruct (_isElement C (type k))|];
      cbn [fmap list_fmap]; rewrite ?IH, ?deref_cons, ?En, ?Ek; reflexivity.
  - replace (length (children n) - S j)%nat with 0%nat by lia.
    rewrite drop_ge by lia. cbn [seq fmap list_fmap List.filter].
    change (isElement_at D C (j :: a))
      with (elem_at D (_isElement C) (j :: a)).
    rewrite (elem_at_child D (_isElement C) a n j En).
    now rewrite (lookup_ge_None_2 (children n) j) by lia.
Qed.

(** X15: a slice [[start:stop]] of a valid proxy of a graph starts at
    the child [findChild] gives for [start]: it is a list of new proxies
    on that child and the siblings after it that [_isElement] accepts,
    in document order, [stop - start] of them at most; the siblings that
    are no elements are skipped and take no place in the count. *)
Theorem getslice_from_found_child (h : heap) (self s : nat)
    (p ps : _ElementProxy) (l : list nat) (a : addr) (n : xmlNode)
    (start stop : Z) (j : nat) :
  h !! self = Some p -> _c_node p = Some a -> deref D a = Some n ->
  _source_proxy p = Some s -> h !! s = Some ps ->
  _dependent_proxies ps = Some l ->
  findChild C (Some a) start = Some (j :: a) ->
  exists h' k,
    __getslice__ D C self start stop h
    = (h', Ok (PyList (PyProxy <$> seq (length h) k)))
    /\ keeps_proxies h h'
    /\ length h' = (length h + k)%nat
    /\ (fun q => match _c_node q with
                 | Some c => deref D c
                 | None => None
                 end) <$> drop (length h) h'
       = Some <$> take (Z.to_nat (stop - start))
                    (element_nodes (_isElement C) (drop j (children n))).
Proof.
  intros Ep Ec En Es Eps El Efind.
  unfold __getslice__, bind at 1. rewrite (load_ok _ _ _ Ep), Ec, Efind.
  destruct (getslice_loop_spec self s stop
              (sibling_chain D (@Some addr (j :: a))) start [] h)
    as (h' & Erun & K & Hcs); [eauto|eauto|].
  set (cs := take (Z.to_nat (stop - start))
               (List.filter (isElement_at D C)
                  (sibling_chain D (@Some addr (j :: a))))) in *.
  exists h', (length cs). cbv beta zeta iota. unfold bind, ret.
  change (@Some (list nat) (j :: a)) with (@Some addr (j :: a)).
  rewrite Erun. cbn [app].
  split; [reflexivity|]. split; [exact K|].
  assert (length (drop (length h) h') = length cs) as Hlen
    by (rewrite <- (length_fmap _c_node), Hcs; apply length_fmap).
  split.
  { rewrite length_drop in Hlen. destruct K as [L _]. lia. }
  transitivity ((fun o : ptr => match o with
                                | Some c => deref D c
                                | None => None
                                end) <$> (_c_node <$> drop (length h) h')).
  { now rewrite <- list_fmap_compose. }
  rewrite Hcs, <- list_fmap_compose.
  change ((fun o : ptr => match o with
                          | Some c => deref D c
                          | None => None
                          end) ∘ Some) with (deref D).
  unfold cs. rewrite !fmap_take. f_equal.
  exact (chain_element_nodes a n j En).
Qed.

End SliceMore.

Section SliceWitnesses.
Import PyClassLookup.

Lemma getslice_from_found_child_witness :
  let C := spec_cetree sample_doc element_only in
  let h := [mk_proxy (Some sample_root_addr) (Some 0%nat) (Some [0%nat])] in
  exists h' k,
    __getslice__ sample_doc C 0 0 2 h
    = (h', Ok (PyList (PyProxy <$> seq (length h) k)))
    /\ keeps_proxies h h'
    /\ length h' = (length h + k)%nat
    /\ (fun q => match _c_node q with
                 | Some c => deref sample_doc c
                 | None => None
                 end) <$> drop (length h) h'
       = [Some (leaf XML_ELEMENT_NODE "e0"); Some (leaf XML_ELEMENT_NODE "e2")].
Proof.
  cbn zeta.
  apply (getslice_from_found_child sample_doc
           (spec_cetree sample_doc element_only)
           [mk_proxy (Some sample_root_addr) (Some 0%nat) (Some [0%nat])]
           0%nat 0%nat
           (mk_proxy (Some sample_root_addr) (Some 0%nat) (Some [0%nat]))
           (mk_proxy (Some sample_root_addr) (Some 0%nat) (Some [0%nat]))
           [0%nat] sample_root_addr sample_root 0 2 0%nat
           eq_refl eq_refl eq_refl eq_refl eq_refl eq_refl eq_refl).
Defined.

End SliceWitnesses.

(** * The proxies of one pass *)

Section PassProperties.
Import PyClassLookup.
Variable D : xmlNode.
Variable C : cetree.

Lemma spawning_from_pure (self : nat) {A} (c : M heap A) :
  heap_pure c -> spawning_from self c.
Proof. intros Hc h. rewrite (Hc h). apply rtc_refl. Qed.

Lemma spawning_from_bind (self : nat) {A B} (c : M heap A)
    (k : A -> M heap B) :
  spawning_from self c -> (forall a, spawning_from self (k a)) ->
  spawning_from self (bind c k).
Proof.
  intros Hc Hk h. unfold bind. specialize (Hc h).
  destruct (c h) as [h' [a|e]]; cbn [fst] in *; [|exact Hc].
  eapply rtc_trans; [exact Hc|apply Hk].
Qed.

Lemma spawning_from_new (self : nat) {A} (c : ptr) (k : nat -> M heap A) :
  (forall el, spawning_from self (k el)) ->
  spawning_from self
    (p <- load self ;; el <- _newProxy (_source_proxy p) c ;; k el).
Proof.
  intros Hk h. unfold bind at 1. unfold load.
  destruct (h !! self) as [p|] eqn:Ep; [|apply rtc_refl].
  unfold bind.
  pose proof (spawn_of_self self h p c Ep) as Hs.
  destruct (_newProxy (_source_proxy p) c h) as [h' [el|e]]; cbn [fst] in *.
  - eapply rtc_l; [exact Hs|apply Hk].
  - now apply rtc_once.
Qed.

Lemma spawning_from_load (self : nat) {A} (k : _ElementProxy -> M heap A) :
  (forall p, spawning_from self (k p)) ->
  spawning_from self (p <- load self ;; k p).
Proof.
  intros Hk. apply spawning_from_bind; [|exact Hk].
  apply spawning_from_pure, heap_pure_load.
Qed.

Lemma getslice_loop_spawning_from self stop chain c result :
  spawning_from self (getslice_loop D C self stop chain c result).
Proof.
  revert c result. induction chain as [|a chain IH]; intros c result;
    cbn [getslice_loop]; [apply spawning_from_pure, heap_pure_ret|].
  destruct (c <? stop); [|apply spawning_from_pure, heap_pure_ret].
  destruct (isElement_at D C a); [|apply IH].
  apply spawning_from_new. intros el. apply IH.
Qed.

Lemma getchildren_loop_spawning_from self chain result :
  spawning_from self (getchildren_loop D C self chain result).
Proof.
  revert result. induction chain as [|a chain IH]; intros result;
    cbn [getchildren_loop]; [apply spawning_from_pure, heap_pure_ret|].
  destruct (isElement_at D C a); [|apply IH].
  apply spawning_from_new. intros el. apply IH.
Qed.

Lemma getchildren_refs_spawning_from self :
  spawning_from self (getchildren_refs D C self).
Proof.
  apply spawning_from_bind; [apply spawning_from_pure, heap_pure_assert|].
  intros _. apply spawning_from_load. intros p.
  apply getchildren_loop_spawning_from.
Qed.

Lemma tag_heap_pure (el : nat) : heap_pure (tag C el).
Proof.
  apply heap_pure_bind; [apply heap_pure_assert|]. intros _.
  apply heap_pure_bind; [apply heap_pure_load|]. intros p.
  apply heap_pure_ret.
Qed.

(** The tag filter reads the tags of other proxies and makes none. *)
Lemma filter_by_tag_heap_pure (t : pyobj) (children : list nat) :
  heap_pure (filter_by_tag C t children).
Proof.
  induction children as [|el rest IH]; cbn [filter_by_tag];
    [apply heap_pure_ret|].
  apply heap_pure_bind; [apply tag_heap_pure|]. intros t'.
  apply heap_pure_bind; [exact IH|]. intros kept.
  destruct t' as [| | |x| | | | | |]; try apply heap_pure_ret.
  destruct t as [| | |y| | | | | |]; try apply heap_pure_ret.
  destruct (String.eqb x y); apply heap_pure_ret.
Qed.

Ltac spawning_from_steps :=
  repeat match goal with
         | |- spawning_from _ (ret _) =>
             apply spawning_from_pure, heap_pure_ret
         | |- spawning_from _ (raise _) =>
             apply spawning_from_pure, heap_pure_raise
         | |- spawning_from _ (lift _) =>
             apply spawning_from_pure, heap_pure_lift
         | |- spawning_from _ (bind (_assertNode _) _) =>
             apply spawning_from_bind;
             [apply spawning_from_pure, heap_pure_assert|intros _]
         | |- spawning_from _ (bind (lift _) _) =>
             apply spawning_from_bind;
             [apply spawning_from_pure, heap_pure_lift|intros ?]
         | |- spawning_from _
                (bind (load _) (fun p => bind (_newProxy _ _) _)) =>
             apply spawning_from_new; intros ?
         | |- spawning_from _ (bind (load _) _) =>
             apply spawning_from_load; intros ?
         | |- spawning_from _ (match ?x with _ => _ end) => destruct x
         | |- spawning_from _ (if ?x then _ else _) => destruct x
         | |- spawning_from _ (let '(_, _) := ?x in _) => destruct x
         end.

(** Every access on [self] changes the heap only by steps made through
    [self]. *)
Lemma perform_spawning_from (a : access) (self : nat) :
  spawning_from self (perform D C a self).
Proof.
  destruct a; cbn [perform];
    unfold tag, text, tail, attrib, prefix, sourceline, __getitem__,
      __len__, __nonzero__, get, _getAttributeValue, keys, values, items,
      getparent, getnext, getprevious;
    try (spawning_from_steps; fail).
  - unfold __getslice__. apply spawning_from_load. intros p.
    destruct (findChild C (_c_node p) start);
      [|apply spawning_from_pure, heap_pure_ret].
    apply spawning_from_bind; [apply getslice_loop_spawning_from|].
    intros r. apply spawning_from_pure, heap_pure_ret.
  - unfold __iter__, getchildren.
    apply spawning_from_bind;
      [|intros r; apply spawning_from_pure, heap_pure_ret].
    apply spawning_from_bind; [apply getchildren_refs_spawning_from|].
    intros r. apply spawning_from_pure, heap_pure_ret.
  - unfold iterchildren.
    apply spawning_from_bind; [apply getchildren_refs_spawning_from|].
    intros ch.
    apply spawning_from_bind;
      [|intros r; apply spawning_from_pure, heap_pure_ret].
    destruct tag_wanted;
      try apply spawning_from_pure, filter_by_tag_heap_pure.
    apply spawning_from_pure, heap_pure_ret.
  - unfold getchildren.
    apply spawning_from_bind; [apply getchildren_refs_spawning_from|].
    intros r. apply spawning_from_pure, heap_pure_ret.
Qed.

(** A step made through a proxy of the pass makes a proxy of the pass. *)
Lemma spawn_of_pass_sources (n self : nat) (h h' : heap) :
  (n <= self)%nat -> spawn_of self h h' ->
  pass_sources n h -> pass_sources n h'.
Proof.
  intros Hself [h0 p c Ep] Hsrc i q' Hi Ei.
  destruct (newProxy_effect (_source_proxy p) c h0)
    as (Hlen & (x & Ex & _ & Exs & _) & Hold & _).
  destruct (decide (i = length h0)) as [->|Hne].
  - rewrite Ex in Ei. injection Ei as <-.
    now rewrite Exs, (Hsrc self p Hself Ep).
  - assert (i < length h0)%nat as Hlt by (apply lookup_lt_Some in Ei; lia).
    destruct (lookup_lt_is_Some_2 h0 i Hlt) as [q Eq].
    destruct (Hold i q Eq) as (q'' & Eq'' & _ & Esq & _).
    rewrite Ei in Eq''. injection Eq'' as <-.
    rewrite Esq. exact (Hsrc i q Hi Eq).
Qed.

Lemma spawns_of_pass_sources (n self : nat) (h h' : heap) :
  (n <= self)%nat -> rtc (spawn_of self) h h' ->
  pass_sources n h -> pass_sources n h'.
Proof.
  intros Hself. induction 1; eauto using spawn_of_pass_sources.
Qed.

(** Confined user code makes proxies of its pass only. *)
Lemma confined_run_pass_sources (n : nat) (c : code) :
  forall h,
    confined D C n c h = true -> pass_sources n h ->
    pass_sources n (fst (run D C c h)).
Proof.
  induction c as [v|e|a self k IH]; intros h Hconf Hsrc; cbn [run];
    [exact Hsrc|exact Hsrc|].
  cbn [confined] in Hconf. apply andb_prop in Hconf as [Hself Hconf].
  apply Nat.leb_le in Hself.
  pose proof (perform_spawning_from a self h) as Hp.
  destruct (perform D C a self h) as [h' r]; cbn [fst] in Hp.
  apply IH; [exact Hconf|].
  eapply spawns_of_pass_sources; eauto.
Qed.

Lemma new_root_pass_sources (c : ptr) (h : heap) :
  pass_sources (length h) (fst (_newProxy None c h)).
Proof.
  rewrite newProxy_root. cbn [fst]. intros i q Hi Ei.
  assert (i = length h) as ->.
  { apply lookup_lt_Some in Ei. rewrite length_app in Ei. cbn in Ei. lia. }
  rewrite lookup_snoc in Ei. now injection Ei as <-.
Qed.

(** C10: every proxy made during a classification pass is in the
    registry of the pass's root proxy, the root itself included, so the
    teardown gives every one of them a [NULL] node and none escapes.
    [h0] holds the proxies that exist when the pass starts; the proxies
    of the pass are those from reference [length h0] on, and [user] is
    the code run with the root proxy, which works on them. *)
Theorem pass_proxies_registered_and_invalidated (c_node : ptr)
    (user : nat -> code) (h0 : heap) :
  refs_live h0 ->
  confined D C (length h0) (user (length h0))
    (fst (_newProxy None c_node h0)) = true ->
  let root := length h0 in
  let h1 := fst (_newProxy None c_node h0) in
  let h2 := fst (run D C (user root) h1) in
  let h3 := fst (_freeProxies (Some root) h2) in
  registry h1 root = [root]
  /\ (forall i, (root <= i < length h2)%nat -> i ∈ registry h2 root)
  /\ snd (_freeProxies (Some root) h2) = Ok tt
  /\ length h3 = length h2
  /\ (forall i q, (root <= i)%nat -> h3 !! i = Some q -> _c_node q = NULL)
  /\ registry h3 root = [].
Proof.
  intros Hlive Hconf root h1 h2 h3.
  pose proof (pass_graph_inv D C c_node (user root) h0 Hlive) as Hinv.
  fold root h1 h2 in Hinv.
  assert (pass_sources root h2) as Hsrc.
  { apply confined_run_pass_sources; [exact Hconf|].
    apply new_root_pass_sources. }
  destruct (freeProxies_effect root h2 Hinv)
    as (h' & Efree & Hlen & Ereg & Hh').
  assert (h3 = h') as -> by (unfold h3; now rewrite Efree).
  split.
  { unfold h1, registry, root. rewrite newProxy_root. cbn [fst].
    now rewrite lookup_snoc. }
  split.
  { intros i [Hlo Hhi].
    destruct (lookup_lt_is_Some_2 h2 i Hhi) as [q Eq].
    exact (inv_registered _ _ Hinv i q Eq (Hsrc i q Hlo Eq)). }
  split; [now rewrite Efree|].
  split; [exact Hlen|].
  split; [|exact Ereg].
  intros i q Hi Ei. destruct (Hh' i q Ei) as (q2 & E2 & _ & Hin).
  apply Hin. exact (inv_registered _ _ Hinv i q2 E2 (Hsrc i q2 Hi E2)).
Qed.

End PassProperties.

Section PassWitness.
Import PyClassLookup.

Lemma pass_proxies_registered_and_invalidated_witness :
  let C := spec_cetree sample_doc element_only in
  let user := fun root =>
    Access a_getchildren root (fun _ =>
    Access a_getparent (S (S root)) (fun _ =>
    Access (a_getitem 1) root (fun _ => Return PyNone))) in
  let h2 := fst (run sample_doc C (user 1%nat)
                   (fst (_newProxy None (Some sample_root_addr) older_heap))) in
  let h3 := fst (_freeProxies (Some 1%nat) h2) in
  refs_live older_heap
  /\ confined sample_doc C 1 (user 1%nat)
       (fst (_newProxy None (Some sample_root_addr) older_heap)) = true
  /\ length h3 = 6%nat
  /\ (forall i q, (1 <= i)%nat -> h3 !! i = Some q -> _c_node q = NULL).
Proof.
  cbn zeta.
  assert (refs_live older_heap) as Hlive.
  { intros [|i] q s Ei Es; [|discriminate].
    injection Ei as <-. injection Es as <-. cbn. lia. }
  split; [exact Hlive|]. split; [reflexivity|].
  pose proof (pass_proxies_registered_and_invalidated sample_doc
                (spec_cetree sample_doc element_only) (Some sample_root_addr)
                (fun root =>
                   Access a_getchildren root (fun _ =>
                   Access a_getparent (S (S root)) (fun _ =>
                   Access (a_getitem 1) root (fun _ => Return PyNone))))
                older_heap Hlive eq_refl) as T.
  cbn zeta in T. destruct T as (_ & _ & _ & Hlen & Hnull & _).
  split; [exact (eq_trans Hlen eq_refl)|exact Hnull].
Defined.

End PassWitness.

(** * The size of a slice *)

Section SliceBound.
Import PyClassLookup.
Variable D : xmlNode.
Variable C : cetree.

(** From [stop] on the loop of [__getslice__] does nothing. *)
Lemma getslice_loop_stopped (self : nat) (stop : Z) (chain : list addr)
    (c : Z) (result : list pyobj) (h : heap) :
  stop <= c ->
  getslice_loop D C self stop chain c result h = (h, Ok result).
Proof.
  intros Hc. destruct chain as [|a chain]; cbn [getslice_loop];
    [reflexivity|].
  destruct (Z.ltb_spec c stop); [lia|reflexivity].
Qed.

(** X12: on a valid proxy of a graph, a slice [[start:stop]] returns a
    list of new proxies, [stop - start] of them at most, whatever
    [findChild] gives for [start]; when [stop <= start] the list is empty
    and the heap is left as it is. *)
Theorem getslice_returns_bounded_list (h : heap) (self s : nat)
    (p ps : _ElementProxy) (l : list nat) (a : addr) (start stop : Z) :
  h !! self = Some p -> _c_node p = Some a ->
  _source_proxy p = Some s -> h !! s = Some ps ->
  _dependent_proxies ps = Some l ->
  exists h' k,
    __getslice__ D C self start stop h
    = (h', Ok (PyList (PyProxy <$> seq (length h) k)))
    /\ Z.of_nat k <= Z.max 0 (stop - start)
    /\ length h' = (length h + k)%nat
    /\ keeps_proxies h h'
    /\ (stop <= start -> k = 0%nat /\ h' = h).
Proof.
  intros Ep Ec Es Eps El.
  unfold __getslice__, bind at 1. rewrite (load_ok _ _ _ Ep), Ec.
  destruct (findChild C (Some a) start) as [c|].
  - destruct (getslice_loop_spec D C self s stop (sibling_chain D (Some c))
                start [] h) as (h' & Erun & K & Hcs); [eauto|eauto|].
    cbv zeta in Erun, Hcs.
    set (cs := take (Z.to_nat (stop - start))
                 (List.filter (isElement_at D C) (sibling_chain D (Some c))))
      in *.
    exists h', (length cs). unfold bind, ret. rewrite Erun. cbn [app].
    split; [reflexivity|].
    assert (length cs <= Z.to_nat (stop - start))%nat as Hk
      by (unfold cs; rewrite length_take; lia).
    split; [lia|].
    assert (length (drop (length h) h') = length cs) as Hlen
      by (rewrite <- (length_fmap _c_node), Hcs; apply length_fmap).
    split.
    { rewrite length_drop in Hlen. destruct K as [L _]. lia. }
    split; [exact K|].
    intros Hstop. split; [lia|].
    rewrite (getslice_loop_stopped self stop _ start [] h Hstop) in Erun.
    now injection Erun.
  - exists h, 0%nat. unfold ret. cbn [seq fmap list_fmap].
    split; [reflexivity|]. split; [lia|]. split; [lia|].
    split; [apply keeps_proxies_refl|]. intros _. split; reflexivity.
Qed.

End SliceBound.

Section SliceBoundWitness.
Import PyClassLookup.

Lemma getslice_returns_bounded_list_witness :
  let C := spec_cetree sample_doc element_only in
  let h := [mk_proxy (Some sample_root_addr) (Some 0%nat) (Some [0%nat])] in
  exists h' k,
    __getslice__ sample_doc C 0 1 5 h
    = (h', Ok (PyList (PyProxy <$> seq (length h) k)))
    /\ Z.of_nat k <= Z.max 0 (5 - 1)
    /\ length h' = (length h + k)%nat
    /\ keeps_proxies h h'
    /\ (5 <= 1 -> k = 0%nat /\ h' = h).
Proof.
  cbn zeta.
  apply (getslice_returns_bounded_list sample_doc
           (spec_cetree sample_doc element_only)
           [mk_proxy (Some sample_root_addr) (Some 0%nat) (Some [0%nat])]
           0%nat 0%nat
           (mk_proxy (Some sample_root_addr) (Some 0%nat) (Some [0%nat]))
           (mk_proxy (Some sample_root_addr) (Some 0%nat) (Some [0%nat]))
           [0%nat] sample_root_addr 1 5
           eq_refl eq_refl eq_refl eq_refl eq_refl).
Defined.

End SliceBoundWitness.
